(** * xrecord: capture a screen region, then transcode it

    A shallow embedding of [xrecord.py] and the properties of its
    capture/encode pipeline: the time stamp parser, the supervised run of a
    child process with signal handlers, the two stages with their exit code
    policies, the allocation of the output file and the top-level driver.

    Python code that mutates the process-wide state (file system, signal
    dispositions, terminal) and raises exceptions is written in a state and
    exception monad [M]; the state survives a raised exception, as it does in
    Python.  What the libraries and the operating system answer (launching a
    command, [str.format], a refusal to create a file, the bytes a child
    writes, the value of a configuration key) is an input of the model. *)

From Stdlib Require Import ZArith List String Ascii Bool Lia DecimalString Sorted.
From Stdlib Require Import FunInd Recdef DecimalPos.
Import ListNotations.

Local Open Scope string_scope.
Local Open Scope list_scope.
Local Open Scope Z_scope.


(** ** Exceptions and results *)

(** The Python exceptions the program can raise.  [CalledProcessError]
    carries [proc.returncode] (which Python types as an optional int) and the
    command. *)
Inductive exn : Type :=
| CalledProcessError (returncode : option Z) (cmd : list string)
| FileExistsError (filename : string)
| FileNotFoundError (filename : string)
| PermissionError (filename : string)
| OSError (what : string)
| KeyError (key : string)
| TypeError (msg : string)
| ValueError (msg : string)
| AttributeError (msg : string)
| ZeroDivisionError (msg : string)
| UnicodeDecodeError (object : string)
| InterpolationSyntaxError (msg : string).

Inductive result (A : Type) : Type :=
| Ok (a : A)
| Raise (e : exn).
Arguments Ok {A} a.
Arguments Raise {A} e.

Definition and_then {A B} (r : result A) (k : A -> result B) : result B :=
  match r with
  | Ok a => k a
  | Raise e => Raise e
  end.

(** ** datetime.timedelta *)

(** A [timedelta] is determined by its total number of microseconds;
    equality and ordering of timedeltas are those of that number. *)
Definition timedelta : Type := Z.

(** [timedelta(hours=h, minutes=m, seconds=s, microseconds=us)] *)
Definition mk_timedelta (hours minutes seconds microseconds : Z) : timedelta :=
  (hours * 3600 + minutes * 60 + seconds) * 1000000 + microseconds.

(** [timedelta()] *)
Definition timedelta0 : timedelta := mk_timedelta 0 0 0 0.

(** ** Regular expressions of fixed width *)

(** The only pattern matched against ffmpeg's output is a sequence of
    one-character atoms: a literal character, the class [[0-9]], and the
    dot, which in Python matches every character but the newline. *)
Inductive atom : Type :=
| Chr (c : ascii)
| Digit
| AnyChar.

Definition newline : ascii := ascii_of_nat 10.

Definition is_digit (c : ascii) : bool :=
  ((48 <=? N_of_ascii c) && (N_of_ascii c <=? 57))%N.

Definition atom_matches (a : atom) (c : ascii) : bool :=
  match a with
  | Chr x => Ascii.eqb x c
  | Digit => is_digit c
  | AnyChar => negb (Ascii.eqb c newline)
  end.

(** [match_here re s]: the text matched by [re] at the start of [s]. *)
Fixpoint match_here (re : list atom) (s : string) : option string :=
  match re with
  | [] => Some EmptyString
  | a :: re' =>
      match s with
      | EmptyString => None
      | String c s' =>
          if atom_matches a c
          then option_map (String c) (match_here re' s')
          else None
      end
  end.

(** [re.search]: the leftmost match. *)
Fixpoint re_search (re : list atom) (s : string) : option string :=
  match match_here re s with
  | Some m => Some m
  | None =>
      match s with
      | EmptyString => None
      | String _ s' => re_search re s'
      end
  end.

Fixpoint literal (s : string) : list atom :=
  match s with
  | EmptyString => []
  | String c s' => Chr c :: literal s'
  end.

(** [r"time=([0-9]{2}):([0-9]{2}):([0-9]{2}).([0-9]{2})"]: the dot before
    the last group is not escaped. *)
Definition re_ffmpeg_progress : list atom :=
  literal "time=" ++ [Digit; Digit; Chr ":"; Digit; Digit; Chr ":";
                      Digit; Digit; AnyChar; Digit; Digit].

(** The groups of a match of [re_ffmpeg_progress] sit at fixed offsets. *)
Definition groups (m : string) : string * string * string * string :=
  (substring 5 2 m, substring 8 2 m, substring 11 2 m, substring 14 2 m).

(** ** int() on text *)

Definition digit_value (c : ascii) : Z := Z.of_N (N_of_ascii c) - 48.

Fixpoint int_digits (acc : Z) (s : string) : option Z :=
  match s with
  | EmptyString => Some acc
  | String c s' =>
      if is_digit c then int_digits (10 * acc + digit_value c) s' else None
  end.

(** [sys.int_info.default_max_str_digits]: CPython, from 3.11 on, refuses
    to convert a text of more digits than this. *)
Definition int_max_str_digits : Z := 4300.

(** [int(s)] for an unsigned decimal literal; anything else is a
    [ValueError], and so is a literal of more than [int_max_str_digits]
    digits, leading zeros counted. *)
Definition int (s : string) : result Z :=
  match s with
  | EmptyString => Raise (ValueError "invalid literal for int()")
  | _ =>
      match int_digits 0 s with
      | Some z =>
          if int_max_str_digits <? Z.of_nat (String.length s)
          then Raise (ValueError "Exceeds the limit (4300 digits) for integer string conversion")
          else Ok z
      | None => Raise (ValueError "invalid literal for int()")
      end
  end.

(** ** extract_ffmpeg_time *)

Definition extract_ffmpeg_time (line : string) : result (option timedelta) :=
  match re_search re_ffmpeg_progress line with
  | Some m =>
      let '(g0, g1, g2, g3) := groups m in
      match int g0 with
      | Raise e => Raise e
      | Ok hours =>
          match int g1 with
          | Raise e => Raise e
          | Ok minutes =>
              match int g2 with
              | Raise e => Raise e
              | Ok seconds =>
                  match int g3 with
                  | Raise e => Raise e
                  | Ok cs =>
                      Ok (Some (mk_timedelta hours minutes seconds (cs * 10000)))
                  end
              end
          end
      end
  | None => Ok None
  end.

(** The pattern as the specification words it, with a literal dot between
    the seconds and the centiseconds; only used to compare the parser with
    it. *)
Definition re_timestamp_literal : list atom :=
  literal "time=" ++ [Digit; Digit; Chr ":"; Digit; Digit; Chr ":";
                      Digit; Digit; Chr "."; Digit; Digit].

(** What a parser for the pattern with the literal dot returns: the
    duration of the leftmost occurrence, or nothing. *)
Definition spec_timestamp (line : string) : option timedelta :=
  match re_search re_timestamp_literal line with
  | Some m =>
      let '(g0, g1, g2, g3) := groups m in
      match int_digits 0 g0, int_digits 0 g1, int_digits 0 g2, int_digits 0 g3 with
      | Some h, Some mi, Some s, Some cs => Some (mk_timedelta h mi s (cs * 10000))
      | _, _, _, _ => None
      end
  | None => None
  end.

(** ** The machine: files, signal dispositions, terminal, trace *)

(** Disposition of a signal.  [term_handler] is the closure that
    [run_with_signal_forwarding] installs; [default_int_handler] is what
    Python installs for SIGINT at start-up. *)
Inductive handler : Type :=
| SIG_DFL
| SIG_IGN
| default_int_handler
| term_handler.

(** How a stream of a child is redirected ([subprocess.PIPE],
    [subprocess.DEVNULL], an open file, or inherited). *)
Inductive redirect : Type :=
| PIPE
| DEVNULL
| Inherit
| ToFile (name : string).

(** A line of bytes as a child writes it to a stream: the UTF-8 encoding
    of a text, kept as that text, or bytes that are not valid UTF-8. *)
Inductive raw_line : Type :=
| Utf8 (text : string)
| NotUtf8 (bytes : string).

(** [raw.decode()]: the text, or [UnicodeDecodeError] with the bytes. *)
Definition decode (raw : raw_line) : result string :=
  match raw with
  | Utf8 text => Ok text
  | NotUtf8 bytes => Raise (UnicodeDecodeError bytes)
  end.

(** Ghost trace of what the program does with its children and with the
    progress callback, in the order it happens. *)
Inductive event : Type :=
| EvPopen (call : list string) (stdout stderr : redirect)
| EvReadline (raw : raw_line)
| EvPoll
| EvWait
| EvCall (sample : option timedelta).

(** What [print_progress] writes: the percentage of [elapsed] in [total]
    (the rendering of the float is not modelled), and the final line
    break. *)
Inductive output : Type :=
| Percent (elapsed total : timedelta)
| LineBreak.

Record world : Type := mkWorld {
  fs : list string;        (* the paths that exist *)
  sigint : handler;
  sigterm : handler;
  terminal : list output;
  trace : list event
}.

Definition set_fs (f : list string -> list string) (w : world) : world :=
  mkWorld (f (fs w)) (sigint w) (sigterm w) (terminal w) (trace w).

Definition set_sigint (h : handler) (w : world) : world :=
  mkWorld (fs w) h (sigterm w) (terminal w) (trace w).

Definition set_sigterm (h : handler) (w : world) : world :=
  mkWorld (fs w) (sigint w) h (terminal w) (trace w).

Definition add_output (o : output) (w : world) : world :=
  mkWorld (fs w) (sigint w) (sigterm w) (terminal w ++ [o]) (trace w).

Definition add_event (ev : event) (w : world) : world :=
  mkWorld (fs w) (sigint w) (sigterm w) (terminal w) (trace w ++ [ev]).

(** ** The state and exception monad *)

Definition M (A : Type) : Type := world -> world * result A.

Definition ret {A} (a : A) : M A := fun w => (w, Ok a).

Definition raise {A} (e : exn) : M A := fun w => (w, Raise e).

Definition bind {A B} (m : M A) (k : A -> M B) : M B :=
  fun w =>
    match m w with
    | (w', Ok a) => k a w'
    | (w', Raise e) => (w', Raise e)
    end.

Notation "x <- m ;; k" := (bind m (fun x => k))
  (at level 61, m at next level, right associativity).
Notation "' pat <- m ;; k" := (bind m (fun x => match x with pat => k end))
  (at level 61, pat pattern, m at next level, right associativity).
Notation "m ;; k" := (bind m (fun _ => k))
  (at level 61, right associativity).

Definition lift {A} (r : result A) : M A := fun w => (w, r).

Definition modify (f : world -> world) : M unit := fun w => (f w, Ok tt).

Definition log (ev : event) : M unit := modify (add_event ev).

(** [try: body finally: final]: [final] runs on every exit of [body]; an
    exception of [final] replaces the outcome of [body]. *)
Definition try_finally {A} (body : M A) (final : M unit) : M A :=
  fun w =>
    match body w with
    | (w1, r) =>
        match final w1 with
        | (w2, Ok _) => (w2, r)
        | (w2, Raise e) => (w2, Raise e)
        end
    end.

(** [try: body except: handler; raise]: the bare [except] catches every
    exception, runs [handler] and raises the exception again. *)
Definition try_except_reraise {A} (body : M A) (handler : M unit) : M A :=
  fun w =>
    match body w with
    | (w1, Ok a) => (w1, Ok a)
    | (w1, Raise e) =>
        match handler w1 with
        | (w2, Ok _) => (w2, Raise e)
        | (w2, Raise e') => (w2, Raise e')
        end
    end.

(** ** Child processes *)

(** What a child does, as far as the program can observe it: the lines it
    writes to its diagnostic stream, for how many polls it is still found
    running, the exit status it ends with (255 is what ffmpeg exits with
    after a terminate request; a child killed by signal n has status -n), and
    the files it creates. *)
Record child : Type := mkChild {
  stderr_lines : list raw_line;
  lifetime : nat;
  exit_status : Z;
  creates : list string
}.

Inductive launch : Type :=
| Launched (c : child)
| LaunchFails (e : exn).

(** [subprocess.Popen] object.  [stderr] is [None] unless the stream is
    piped; otherwise it holds the lines not read yet. *)
Record Popen : Type := mkPopen {
  args : list string;
  stderr : option (list raw_line);
  alive : nat;
  status : Z;
  returncode : option Z
}.

(** [proc.poll()] *)
Definition poll (proc : Popen) : Popen :=
  match returncode proc with
  | Some _ => proc
  | None =>
      match alive proc with
      | O => mkPopen (args proc) (stderr proc) O (status proc) (Some (status proc))
      | S n => mkPopen (args proc) (stderr proc) n (status proc) None
      end
  end.

(** [proc.wait()] *)
Definition wait (proc : Popen) : Popen :=
  match returncode proc with
  | Some _ => proc
  | None => mkPopen (args proc) (stderr proc) O (status proc) (Some (status proc))
  end.

(** The process object once [proc.stderr.readline()] has consumed a line. *)
Definition advance (proc : Popen) : Popen :=
  mkPopen (args proc) (option_map (@tl raw_line) (stderr proc)) (alive proc)
          (status proc) (returncode proc).

(** [proc.stderr.readline()]: the next line, or no bytes at the end of
    the stream. *)
Definition readline (proc : Popen) : M raw_line :=
  match stderr proc with
  | None => raise (AttributeError "'NoneType' object has no attribute 'readline'")
  | Some lines =>
      let raw := hd (Utf8 EmptyString) lines in
      log (EvReadline raw) ;; ret raw
  end.

(** Polls that are left before [proc.returncode] is set. *)
Definition remaining (proc : Popen) : nat :=
  match returncode proc with
  | Some _ => O
  | None => S (alive proc)
  end.

(** ** Progress callbacks *)

Definition callback : Type := option timedelta -> M unit.

(** A call [progress_cb(sample)], recorded in the trace. *)
Definition call (progress_cb : callback) (sample : option timedelta) : M unit :=
  log (EvCall sample) ;; progress_cb sample.

(** ** ffmpeg_progress *)

(** One turn of the loop of [ffmpeg_progress], up to [proc.poll()]. *)
Definition progress_turn (progress_cb : callback) (proc : Popen) : M unit :=
  raw <- readline proc ;;
  line <- lift (decode raw) ;;
  time <- lift (extract_ffmpeg_time line) ;;
  match time with
  | Some t => call progress_cb (Some t)
  | None => ret tt
  end.

Function progress_loop (progress_cb : callback) (proc : Popen) (w : world)
  {measure remaining proc} : world * result Popen :=
  match returncode proc with
  | Some _ => (w, Ok proc)
  | None =>
      match progress_turn progress_cb proc w with
      | (w1, Raise e) => (w1, Raise e)
      | (w1, Ok _) =>
          progress_loop progress_cb (poll (advance proc)) (add_event EvPoll w1)
      end
  end.
Proof.
  intros * running; intros.
  unfold remaining, poll, advance; simpl; rewrite running.
  destruct (alive proc); simpl; lia.
Defined.

Definition ffmpeg_progress (progress_cb : callback) (proc : Popen)
  : M (Popen * option timedelta) :=
  call progress_cb (Some timedelta0) ;;
  proc' <- progress_loop progress_cb proc ;;
  call progress_cb None ;;
  ret (proc', None).

(** ** ffmpeg_capture_duration *)

Definition capture_turn (duration : option timedelta) (proc : Popen)
  : M (option timedelta) :=
  raw <- readline proc ;;
  line <- lift (decode raw) ;;
  time <- lift (extract_ffmpeg_time line) ;;
  match time with
  | Some t => ret (Some t)
  | None => ret duration
  end.

Function capture_loop (duration : option timedelta) (proc : Popen) (w : world)
  {measure remaining proc} : world * result (Popen * option timedelta) :=
  match returncode proc with
  | Some _ => (w, Ok (proc, duration))
  | None =>
      match capture_turn duration proc w with
      | (w1, Raise e) => (w1, Raise e)
      | (w1, Ok duration') =>
          capture_loop duration' (poll (advance proc)) (add_event EvPoll w1)
      end
  end.
Proof.
  intros * running; intros.
  unfold remaining, poll, advance; simpl; rewrite running.
  destruct (alive proc); simpl; lia.
Defined.

Definition ffmpeg_capture_duration (proc : Popen) : M (Popen * option timedelta) :=
  capture_loop None proc.

(** ** Python and library helpers *)

(** [str(n)] for an integer. *)
Definition str (n : Z) : string := NilZero.string_of_int (Z.to_int n).

Fixpoint contains_char (c : ascii) (s : string) : bool :=
  match s with
  | EmptyString => false
  | String x s' => Ascii.eqb c x || contains_char c s'
  end.

Fixpoint ends_with_char (c : ascii) (s : string) : bool :=
  match s with
  | EmptyString => false
  | String x EmptyString => Ascii.eqb c x
  | String _ s' => ends_with_char c s'
  end.

(** [os.path.join(a, b)] *)
Definition path_join (a b : string) : string :=
  if prefix "/" b then b
  else if (String.eqb a "" || ends_with_char "/" a)%bool then a ++ b
  else a ++ "/" ++ b.

Definition exists_path (path : string) (w : world) : bool :=
  existsb (String.eqb path) (fs w).

(** [path] is [dir] or lies under it. *)
Definition under (dir path : string) : bool :=
  (String.eqb path dir || prefix (dir ++ "/") path)%bool.

(** An open file object; only its [name] matters here. *)
Record file : Type := mkFile { name : string }.

(** Why the operating system refuses to create a file at a path that
    does not exist: a directory of the path is missing, the directory may
    not be written, or something else is wrong (a name too long, a full
    disk). *)
Inductive refusal : Type :=
| NoSuchDirectory
| NotPermitted
| OtherFailure (what : string).

Definition refusal_error (path : string) (r : refusal) : exn :=
  match r with
  | NoSuchDirectory => FileNotFoundError path
  | NotPermitted => PermissionError path
  | OtherFailure what => OSError what
  end.

(** The three calls below fail on the state of the file system only (a
    directory that is there already, a path that is not): a refusal of the
    operating system is modelled where the output file is created, in
    [open_x], and not for the directories of the cache. *)

(** [os.makedirs(path)], tracking the leaf directory. *)
Definition os_makedirs (path : string) : M unit :=
  fun w =>
    if exists_path path w
    then (w, Raise (FileExistsError path))
    else (set_fs (cons path) w, Ok tt).

(** [os.unlink(path)] *)
Definition os_unlink (path : string) : M unit :=
  fun w =>
    if exists_path path w
    then (set_fs (filter (fun p => negb (String.eqb path p))) w, Ok tt)
    else (w, Raise (FileNotFoundError path)).

(** [shutil.rmtree(path)] *)
Definition shutil_rmtree (path : string) : M unit :=
  fun w =>
    if exists_path path w
    then (set_fs (filter (fun p => negb (under path p))) w, Ok tt)
    else (w, Raise (FileNotFoundError path)).

(** [signal.signal(signal.SIGINT, h)] and [signal.signal(signal.SIGTERM, h)] *)
Definition signal_SIGINT (h : handler) : M unit := modify (set_sigint h).
Definition signal_SIGTERM (h : handler) : M unit := modify (set_sigterm h).

(** [functools.partial(func, arg)]: Python refuses a first argument that is
    not callable, [None] among them, with a [TypeError]; otherwise the
    partial object is a callable that passes [arg] first. *)
Definition functools_partial (func : option (option timedelta -> callback))
           (arg : option timedelta) : M callback :=
  match func with
  | None => raise (TypeError "the first argument must be callable")
  | Some f => ret (f arg)
  end.

(** A section of the configuration, as a loop over it sees it: the keys
    in order, each with what [config_section[key]] gives, which is the
    value after interpolation or the exception of the interpolation (a
    [%] that nothing follows, say). *)
Definition section_proxy : Type := list (string * result string).

(** [config["encode"]]: a missing section is a [KeyError]. *)
Definition config_getitem (section : option section_proxy) : M section_proxy :=
  match section with
  | None => raise (KeyError "encode")
  | Some items => ret items
  end.

(** ** print_progress *)

Definition print_progress (duration : option timedelta) (time : option timedelta)
  : M unit :=
  let time := match time with None => duration | Some _ => time end in
  match time with
  | None => raise (AttributeError "'NoneType' object has no attribute 'total_seconds'")
  | Some t =>
      match duration with
      | None => raise (AttributeError "'NoneType' object has no attribute 'total_seconds'")
      | Some d =>
          if (d =? 0)%Z then raise (ZeroDivisionError "float division by zero")
          else
            modify (add_output (Percent t d)) ;;
            if (t =? d)%Z then modify (add_output LineBreak) else ret tt
      end
  end.

Definition INITIAL_FILE_NAME : string := "first.mkv".

(** What a run of the program is started with, once the collaborators
    outside the pipeline (command line, geometry discovery, configuration
    lookup, clock and process id) have answered. *)
Record invocation : Type := mkInvocation {
  progress : bool;                 (* args.progress *)
  framerate : Z;                   (* args.framerate *)
  geometry : Z * Z * Z * Z;        (* discover_geometry(args) *)
  display : string;                (* $DISPLAY, or ":0" *)
  xdg_cache_home : string;         (* $XDG_CACHE_HOME, or ~/.cache *)
  general_cachedir : option string;  (* [general] cachedir, if configured *)
  token : string;                  (* "{date}-{pid}" of this run *)
  output_pattern : string;         (* expanded [encode] output, or ~/out-{}.ogv *)
  encode_section : option section_proxy   (* config["encode"] *)
}.

Section Platform.

(** The programs installed on the machine: what launching a command
    gives. *)
Variable spawn : list string -> launch.

(** [pattern.format(i)], Python's format mini-language, left abstract. *)
Variable str_format : string -> nat -> result string.

(** The paths at which the operating system refuses to create a file, with
    the reason. *)
Variable refused : string -> option refusal.

(** [open(path, "xb")]: exclusive creation.  It fails on a refusal of the
    operating system and on a path that exists. *)
Definition open_x (path : string) : M file :=
  fun w =>
    match refused path with
    | Some r => (w, Raise (refusal_error path r))
    | None =>
        if exists_path path w
        then (w, Raise (FileExistsError path))
        else (set_fs (cons path) w, Ok (mkFile path))
    end.

(** [subprocess.Popen(call, stdout=..., stderr=...)] *)
Definition popen (call : list string) (stdout stderr : redirect) : M Popen :=
  log (EvPopen call stdout stderr) ;;
  match spawn call with
  | LaunchFails e => raise e
  | Launched c =>
      modify (set_fs (fun f => creates c ++ f)) ;;
      ret (mkPopen call
                   (match stderr with PIPE => Some (stderr_lines c) | _ => None end)
                   (lifetime c) (exit_status c) None)
  end.

(** *** run_with_signal_forwarding

    The asynchronous delivery of a signal is not modelled: the handler
    only asks the child to terminate, which shows in the exit status of
    the child; the flag [interrupted] is never read. *)
Definition run_with_signal_forwarding (call : list string)
           (stdout stderr : redirect)
           (wait_fun : option (Popen -> M (Popen * option timedelta)))
  : M (Popen * option timedelta) :=
  proc <- popen call stdout stderr ;;
  signal_SIGINT term_handler ;;
  signal_SIGTERM term_handler ;;
  try_finally
    (match wait_fun with
     | None => log EvWait ;; ret (wait proc, None)
     | Some f => f proc
     end)
    (signal_SIGINT SIG_DFL ;; signal_SIGTERM SIG_DFL).

(** *** record *)

Definition record_call (cachefile : string) (framerate : Z) (display : string)
           (geometry : Z * Z * Z * Z) : list string :=
  let '(x, y, width, height) := geometry in
  ["ffmpeg"; "-nostdin"] ++
  ["-video_size"; (str width ++ "x" ++ str height)%string;
   "-framerate"; str framerate;
   "-f"; "x11grab";
   "-i"; (display ++ "+" ++ str x ++ "," ++ str y)%string;
   "-c:v"; "libx264";
   "-qp"; "0";
   "-preset"; "ultrafast";
   cachefile].

(** [code in [0, 255]] *)
Definition capture_accepts (code : option Z) : bool :=
  match code with
  | Some c => ((c =? 0) || (c =? 255))%Z
  | None => false
  end.

Definition record (cachefile : string) (framerate : Z) (display : string)
           (geometry : Z * Z * Z * Z) : M (option timedelta) :=
  let ffmpeg_call := record_call cachefile framerate display geometry in
  '(proc, duration) <- run_with_signal_forwarding ffmpeg_call Inherit PIPE
                         (Some ffmpeg_capture_duration) ;;
  if negb (capture_accepts (returncode proc))
  then raise (CalledProcessError (returncode proc) ffmpeg_call)
  else ret duration.

(** *** open_output_file *)

(** The loop [for i in range(1000)], over the indexes still to try. *)
Fixpoint try_slots (pattern : string) (slots : list nat) : M file :=
  match slots with
  | [] => raise (FileExistsError pattern)
  | i :: rest =>
      fun w =>
        match (path <- lift (str_format pattern i) ;; open_x path) w with
        | (w', Raise (FileExistsError _)) => try_slots pattern rest w'
        | outcome => outcome
        end
  end.

Definition open_output_file (pattern : string) : M file :=
  if negb (contains_char "{" pattern)
  then open_x pattern
  else try_slots pattern (seq 0 1000).

(** *** encode *)

(** The loop over the section: the keys that start with a dash are
    forwarded to ffmpeg, each followed by its value unless that is empty.
    The value is looked up for those keys only, and a lookup that raises
    ends the loop. *)
Fixpoint encode_options (config_section : section_proxy) : result (list string) :=
  match config_section with
  | [] => Ok []
  | (key, lookup) :: rest =>
      if negb (prefix "-" key) then encode_options rest
      else
        and_then lookup (fun value =>
        and_then (encode_options rest) (fun options =>
        Ok (key :: (if String.eqb value "" then [] else [value]) ++ options)))
  end.

Definition encode_call (source_file : string) (config_section : section_proxy)
  : result (list string) :=
  and_then (encode_options config_section) (fun options =>
  Ok (["ffmpeg"; "-nostdin"; "-i"; source_file] ++ options ++ ["-"])).

Definition encode (source_file : string) (output_file : file)
           (config_section : section_proxy)
           (progress_cb : option callback) : M unit :=
  ffmpeg_call <- lift (encode_call source_file config_section) ;;
  '(proc, _) <-
    match progress_cb with
    | Some cb =>
        run_with_signal_forwarding ffmpeg_call (ToFile (name output_file)) PIPE
                                   (Some (ffmpeg_progress cb))
    | None =>
        run_with_signal_forwarding ffmpeg_call (ToFile (name output_file)) DEVNULL
                                   None
    end ;;
  if negb (match returncode proc with Some c => (c =? 0)%Z | None => false end)
  then raise (CalledProcessError (returncode proc) ffmpeg_call)
  else ret tt.

(** *** The driver *)

(** [xdg.BaseDirectory.save_cache_path(resource)]: the directory of the
    resource under the XDG cache home, which is made if it is not there. *)
Definition save_cache_path (cache_home resource : string) : M string :=
  let path := path_join cache_home resource in
  fun w =>
    if exists_path path w then (w, Ok path)
    else (os_makedirs path ;; ret path) w.

(** The fallback is an argument of [config.get]: it is evaluated, and the
    directory made, whether the configuration names a cache directory or
    not. *)
Definition get_cachedir (cache_home : string) (configured : option string)
           (token : string) : M string :=
  fallback <- save_cache_path cache_home "xrecord" ;;
  let cachedir := match configured with Some dir => dir | None => fallback end in
  let cachedir := path_join cachedir token in
  os_makedirs cachedir ;;
  ret cachedir.

(** The block under [with open_output_file(...) as dest]; leaving the
    block closes [dest], which changes nothing of the state modelled. *)
Definition with_dest (inv : invocation) (cachedir : string) (dest : file) : M unit :=
  let progress_cb := if progress inv then Some print_progress else None in
  let recording_filename := path_join cachedir INITIAL_FILE_NAME in
  duration <- try_except_reraise
                (record recording_filename (framerate inv) (display inv) (geometry inv))
                (os_unlink (name dest)) ;;
  config_section <- config_getitem (encode_section inv) ;;
  cb <- functools_partial progress_cb duration ;;
  encode recording_filename dest config_section (Some cb).

Definition main (inv : invocation) : M unit :=
  cachedir <- get_cachedir (xdg_cache_home inv) (general_cachedir inv) (token inv) ;;
  dest <- open_output_file (output_pattern inv) ;;
  with_dest inv cachedir dest ;;
  shutil_rmtree cachedir.

End Platform.

(** ** discover_geometry *)

(** The four patterns on the output of xwininfo have one shape: a literal
    label, [\s*], and the group [([0-9]+)], matched without regard to case
    ([re.I]).  The white space of [\s] is that of Python for the characters
    modelled: tab to carriage return, the four separators before the space,
    the space, NEL and the no-break space. *)
Definition is_space (c : ascii) : bool :=
  let n := N_of_ascii c in
  (((9 <=? n) && (n <=? 13)) || ((28 <=? n) && (n <=? 32)) ||
   (n =? 133) || (n =? 160))%N.

(** The labels are in lower case, and of the characters modelled only an
    ASCII capital lowers to an ASCII letter. *)
Definition lower (c : ascii) : ascii :=
  let n := N_of_ascii c in
  if ((65 <=? n) && (n <=? 90))%N then ascii_of_N (n + 32) else c.

(** The text left after a match of the label at the start of [s]. *)
Fixpoint match_label (label s : string) : option string :=
  match label with
  | EmptyString => Some s
  | String p label' =>
      match s with
      | EmptyString => None
      | String c s' =>
          if Ascii.eqb (lower c) (lower p) then match_label label' s' else None
      end
  end.

Fixpoint skip_spaces (s : string) : string :=
  match s with
  | EmptyString => EmptyString
  | String c s' => if is_space c then skip_spaces s' else s
  end.

Fixpoint leading_digits (s : string) : string :=
  match s with
  | EmptyString => EmptyString
  | String c s' => if is_digit c then String c (leading_digits s') else EmptyString
  end.

(** Group 1 of a match of [label\s*([0-9]+)] at the start of [s].  Both
    repetitions are greedy, and neither can give a character back to what
    follows it. *)
Definition match_field (label s : string) : option string :=
  match match_label label s with
  | None => None
  | Some rest =>
      match leading_digits (skip_spaces rest) with
      | EmptyString => None
      | digits => Some digits
      end
  end.

(** [pattern.search(s)], as group 1 of the leftmost match. *)
Fixpoint search_field (label s : string) : option string :=
  match match_field label s with
  | Some digits => Some digits
  | None =>
      match s with
      | EmptyString => None
      | String _ s' => search_field label s'
      end
  end.

Definition re_upper_left_x : string := "absolute upper-left x:".
Definition re_upper_left_y : string := "absolute upper-left y:".
Definition re_width : string := "width:".
Definition re_height : string := "height:".

(** [m.group(1)] on the result of a search. *)
Definition group1 (m : option string) : result string :=
  match m with
  | Some digits => Ok digits
  | None => Raise (AttributeError "'NoneType' object has no attribute 'group'")
  end.

(** The part of the command line that selects the window. *)
Record arguments : Type := mkArguments {
  window : bool;
  window_id : option string;
  window_name : option string;
  root : bool
}.

Definition xwininfo_call (args : arguments) : list string :=
  ["xwininfo"; "-stats"] ++
  match window_id args with
  | Some id => ["-id"; id]
  | None =>
      match window_name args with
      | Some n => ["-name"; n]
      | None => if root args then ["-root"] else []
      end
  end.

Section Geometry.

(** [subprocess.check_output(call).decode()]: the text the command prints,
    or the exception of a command that cannot be run or fails. *)
Variable check_output : list string -> result string.

Definition discover_geometry (args : arguments) : result (Z * Z * Z * Z) :=
  and_then (check_output (xwininfo_call args)) (fun output =>
  and_then (and_then (group1 (search_field re_upper_left_x output)) int) (fun x =>
  and_then (and_then (group1 (search_field re_upper_left_y output)) int) (fun y =>
  and_then (and_then (group1 (search_field re_width output)) int) (fun w =>
  and_then (and_then (group1 (search_field re_height output)) int) (fun h =>
  Ok (x, y, w, h)))))).

End Geometry.

(** ** Notions used to state the properties *)

(** The value of a group of digits. *)
Definition num (g : string) : Z :=
  match int_digits 0 g with
  | Some z => z
  | None => 0
  end.

(** The duration a match of [re_ffmpeg_progress] stands for. *)
Definition stamp (m : string) : timedelta :=
  let '(g0, g1, g2, g3) := groups m in
  mk_timedelta (num g0) (num g1) (num g2) (num g3 * 10000).

(** The time stamp of a line, if it has one. *)
Definition parsed (line : string) : option timedelta :=
  option_map stamp (re_search re_ffmpeg_progress line).

(** The text [time=h1h2:m1m2:s1s2.c1c2] with a chosen separator before the
    centiseconds. *)
Definition time_field (h1 h2 m1 m2 s1 s2 sep c1 c2 : ascii) : string :=
  "time=" ++ String h1 (String h2 (String ":" (String m1 (String m2 (String ":"
    (String s1 (String s2 (String sep (String c1 (String c2 EmptyString)))))))))).

(** The value of two decimal digits. *)
Definition int2 (a b : ascii) : Z := 10 * digit_value a + digit_value b.

(** The lines a poll loop reads in [turns] turns from a stream that still
    holds [lines]: one per turn, no bytes once the stream is at its end. *)
Fixpoint lines_read (turns : nat) (lines : list raw_line) : list raw_line :=
  match turns with
  | O => []
  | S n => hd (Utf8 EmptyString) lines :: lines_read n (tl lines)
  end.

(** The texts of the lines before the first that is not UTF-8. *)
Fixpoint texts (lines : list raw_line) : list string :=
  match lines with
  | Utf8 text :: rest => text :: texts rest
  | _ => []
  end.

(** The bytes of the first line that is not UTF-8, if there is one. *)
Fixpoint garbled (lines : list raw_line) : option string :=
  match lines with
  | [] => None
  | Utf8 _ :: rest => garbled rest
  | NotUtf8 bytes :: _ => Some bytes
  end.

(** The time stamps of the lines that have one, in order. *)
Fixpoint stamps (lines : list string) : list timedelta :=
  match lines with
  | [] => []
  | line :: rest =>
      match parsed line with
      | Some t => t :: stamps rest
      | None => stamps rest
      end
  end.

(** The last time stamp among [lines], [duration] when there is none. *)
Definition last_stamp (duration : option timedelta) (lines : list string)
  : option timedelta :=
  fold_left (fun d line => match parsed line with Some t => Some t | None => d end)
            lines duration.

Definition add_events (evs : list event) (w : world) : world :=
  mkWorld (fs w) (sigint w) (sigterm w) (terminal w) (trace w ++ evs).

(** The process object after [turns] turns of a poll loop. *)
Fixpoint drained (turns : nat) (proc : Popen) : Popen :=
  match turns with
  | O => proc
  | S n => drained n (poll (advance proc))
  end.

(** What the loop of [ffmpeg_capture_duration] leaves in the trace when the
    lines it gets are [lines]: a read and a poll for each, up to the read of
    a line that is not UTF-8. *)
Fixpoint capture_trace (lines : list raw_line) : list event :=
  match lines with
  | [] => []
  | Utf8 text :: rest => EvReadline (Utf8 text) :: EvPoll :: capture_trace rest
  | NotUtf8 bytes :: _ => [EvReadline (NotUtf8 bytes)]
  end.

(** The progress reporting as the specification words it, a list of steps
    taken in order: a call of the callback, the read of a line, a poll, and
    the failure that ends everything. *)
Inductive action : Type :=
| Call (sample : option timedelta)
| Read (raw : raw_line)
| Poll
| Fail (e : exn).

(** The steps for the lines the loop gets: each line is read; if it
    decodes and has a time stamp the callback is called with it; then the
    child is polled.  After the last line the callback is called with
    [None].  A line that does not decode ends the steps with its
    [UnicodeDecodeError]. *)
Fixpoint turns (lines : list raw_line) : list action :=
  match lines with
  | [] => [Call None]
  | Utf8 text :: rest =>
      Read (Utf8 text) ::
      match parsed text with Some t => [Call (Some t)] | None => [] end ++
      Poll :: turns rest
  | NotUtf8 bytes :: _ => [Read (NotUtf8 bytes); Fail (UnicodeDecodeError bytes)]
  end.


(** The call with the zero duration comes first, before any line is
    read. *)
Definition progress_script (lines : list raw_line) : list action :=
  Call (Some timedelta0) :: turns lines.

(** Taking the steps with a callback: the first step that raises, a call
    of the callback or a failure, ends the play with its exception. *)
Definition perform (progress_cb : callback) (a : action) : M unit :=
  match a with
  | Call sample => log (EvCall sample) ;; progress_cb sample
  | Read raw => log (EvReadline raw)
  | Poll => log EvPoll
  | Fail e => raise e
  end.

Fixpoint play (progress_cb : callback) (script : list action) : M unit :=
  match script with
  | [] => ret tt
  | a :: rest => perform progress_cb a ;; play progress_cb rest
  end.

(** The samples, the events and the failure of a script, as far as a
    callback that returns gets in it. *)
Fixpoint script_calls (script : list action) : list (option timedelta) :=
  match script with
  | [] => []
  | Call sample :: rest => sample :: script_calls rest
  | Fail _ :: _ => []
  | _ :: rest => script_calls rest
  end.

Fixpoint script_events (script : list action) : list event :=
  match script with
  | [] => []
  | Call sample :: rest => EvCall sample :: script_events rest
  | Read raw :: rest => EvReadline raw :: script_events rest
  | Poll :: rest => EvPoll :: script_events rest
  | Fail _ :: _ => []
  end.

Fixpoint script_failure (script : list action) : option exn :=
  match script with
  | [] => None
  | Fail e :: _ => Some e
  | _ :: rest => script_failure rest
  end.

(** The outcome of a play, carried over to what the code returns after
    it. *)
Definition outcome_of {A B} (r : result A) (b : result B) : result B :=
  match r with
  | Ok _ => b
  | Raise e => Raise e
  end.

(** The samples handed to the progress callback, in order. *)
Fixpoint delivered (evs : list event) : list (option timedelta) :=
  match evs with
  | [] => []
  | EvCall sample :: rest => sample :: delivered rest
  | _ :: rest => delivered rest
  end.

(** A callback that returns normally whatever it is given. *)
Definition returns_normally (cb : callback) : Prop :=
  forall sample w, snd (cb sample w) = Ok tt.

(** The process object [Popen] returns for a child that was launched. *)
Definition fresh (call : list string) (se : redirect) (c : child) : Popen :=
  mkPopen call (match se with PIPE => Some (stderr_lines c) | _ => None end)
          (lifetime c) (exit_status c) None.

(** The state in which the wait of the supervised run starts. *)
Definition supervised (call : list string) (so se : redirect) (c : child)
           (w : world) : world :=
  mkWorld (creates c ++ fs w) term_handler term_handler (terminal w)
          (trace w ++ [EvPopen call so se]).

Definition restored (w : world) : world :=
  mkWorld (fs w) SIG_DFL SIG_DFL (terminal w) (trace w).

(** The lines a poll loop gets from the child before a poll finds it
    gone. *)
Definition lines_seen (c : child) : list raw_line :=
  lines_read (S (lifetime c)) (stderr_lines c).

(** How each stage ends once its poll loop, or the plain wait, is over. *)
Definition capture_verdict (call : list string) (c : child)
           (duration : option timedelta) : result (option timedelta) :=
  if capture_accepts (Some (exit_status c)) then Ok duration
  else Raise (CalledProcessError (Some (exit_status c)) call).

Definition encode_verdict (call : list string) (c : child) : result unit :=
  if exit_status c =? 0 then Ok tt
  else Raise (CalledProcessError (Some (exit_status c)) call).

(** Frame conditions: a computation is stable for a relation between the
    state before and after when every run of it respects the relation; the
    relation admits an event when recording the event respects it. *)
Definition stable (R : world -> world -> Prop) {A} (m : M A) : Prop :=
  forall w, R w (fst (m w)).

Definition admits (R : world -> world -> Prop) (ev : event) : Prop :=
  forall w, R w (add_event ev w).

(** The events recorded between two states. *)
Definition events_since (w w' : world) : list event :=
  skipn (List.length (trace w)) (trace w').


(** [dir] and everything under it no longer exist. *)
Definition gone (dir : string) (w : world) : Prop :=
  forall path, In path (fs w) -> under dir path = false.

(** The trace only grew, by events that satisfy [Q]. *)
Definition extends (Q : event -> Prop) (w w' : world) : Prop :=
  exists evs, trace w' = trace w ++ evs /\ Forall Q evs.

(** Events of the callback branch of [encode] and of [record]: every child
    is launched with its diagnostic stream piped, and none is waited for
    with the plain [proc.wait()]. *)
Definition piped (ev : event) : Prop :=
  match ev with
  | EvPopen _ _ se => se = PIPE
  | EvWait => False
  | _ => True
  end.

(** Events of a run that launches nothing but [call] and reads its
    diagnostic stream: no other child, no call of a callback. *)
Definition capture_only (call : list string) (ev : event) : Prop :=
  match ev with
  | EvPopen c _ _ => c = call
  | EvReadline _ => True
  | EvPoll => True
  | EvWait => False
  | EvCall _ => False
  end.

(** The directory the cache directory of a run is made in, the cache
    directory itself and the recording in it. *)
Definition xdg_cache_path (inv : invocation) : string :=
  path_join (xdg_cache_home inv) "xrecord".

Definition cache_base (inv : invocation) : string :=
  match general_cachedir inv with
  | Some dir => dir
  | None => xdg_cache_path inv
  end.

Definition cachedir_of (inv : invocation) : string :=
  path_join (cache_base inv) (token inv).

Definition recording_of (inv : invocation) : string :=
  path_join (cachedir_of inv) INITIAL_FILE_NAME.

(** The state once the directory [path] has been made if it was not
    there. *)
Definition ensured (path : string) (w : world) : world :=
  if exists_path path w then w else set_fs (cons path) w.

Definition add_outputs (outs : list output) (w : world) : world :=
  mkWorld (fs w) (sigint w) (sigterm w) (terminal w ++ outs) (trace w).

(** What [print_progress] writes for a sample when the capture lasted
    [duration]: the percentage, and a line break when the sample is the
    duration itself or the final [None]. *)
Definition rendering (duration : timedelta) (sample : option timedelta)
  : list output :=
  let time := match sample with None => duration | Some t => t end in
  Percent time duration :: (if time =? duration then [LineBreak] else []).

(** ** A machine to run the program on *)

(** What [pattern.format(i)] gives for a pattern whose only braces are one
    pair [{}]: the index in decimal in its place. *)
Fixpoint format_slot (pattern : string) (i : nat) : string :=
  match pattern with
  | EmptyString => EmptyString
  | String c rest =>
      match rest with
      | String c' rest' =>
          if (Ascii.eqb c "{" && Ascii.eqb c' "}")%bool
          then (str (Z.of_nat i) ++ rest')%string
          else String c (format_slot rest i)
      | EmptyString => pattern
      end
  end.

Definition format_braces (pattern : string) (i : nat) : result string :=
  Ok (format_slot pattern i).

(** What [pattern.format(i)] gives for a pattern with a brace that is never
    closed. *)
Definition format_unbalanced (pattern : string) (i : nat) : result string :=
  Raise (ValueError "expected '}' before end of string").

(** A machine on which every directory is there and may be written, and
    one without the directory [/nodir]. *)
Definition writable (path : string) : option refusal := None.

Definition without_nodir (path : string) : option refusal :=
  if prefix "/nodir/" path then Some NoSuchDirectory else None.

(** A machine on which the capture command ([-video_size] is its first
    option) and the transcode command behave as given. *)
Definition scripted (capture transcode : child) (call : list string) : launch :=
  if String.eqb (nth 2 call "") "-video_size"
  then Launched capture
  else Launched transcode.

(** A capture that is interrupted after two seconds, and one that cannot
    open the display. *)
Definition capture_2s : child :=
  mkChild [Utf8 "ffmpeg version"; Utf8 "frame=50 time=00:00:02.00 bitrate=N/A";
           Utf8 "Exiting"]
          1 255 ["/cache/tok/first.mkv"].

Definition capture_crash : child :=
  mkChild [Utf8 "cannot open display"] 0 1 [].

(** A capture that chatters on after the poll that finds it gone, one that
    ends before ffmpeg has printed a time stamp, and one that ends at time
    zero. *)
Definition capture_chatty : child :=
  mkChild [Utf8 "time=00:00:01.00"; Utf8 "time=00:00:02.00"; Utf8 "time=00:00:03.00"]
          0 0 [].

Definition capture_mute : child :=
  mkChild [Utf8 "ffmpeg version"; Utf8 "Press [q] to stop"] 1 255
          ["/cache/tok/first.mkv"].

Definition capture_instant : child :=
  mkChild [Utf8 "frame=0 time=00:00:00.00 bitrate=N/A"] 0 255 ["/cache/tok/first.mkv"].

(** The title [caf\xe9] in ISO 8859-1: the byte 233 opens a sequence of
    three bytes in UTF-8, and nothing follows it. *)
Definition latin1_title : string :=
  "    title           : caf" ++ String (ascii_of_nat 233) EmptyString.

(** A capture, and a transcode, that print the title of the stream in
    ISO 8859-1 after the first time stamp, and exit with 0. *)
Definition capture_latin1 : child :=
  mkChild [Utf8 "frame=25 time=00:00:01.00 bitrate=N/A"; NotUtf8 latin1_title;
           Utf8 "frame=50 time=00:00:02.00 bitrate=N/A"]
          2 0 ["/cache/tok/first.mkv"].

Definition transcode_latin1 : child :=
  mkChild [Utf8 "time=00:00:01.00"; NotUtf8 latin1_title; Utf8 "time=00:00:02.00"]
          2 0 [].

(** Transcodes: one that completes, one that fails, one that is terminated,
    and one whose time stamps go beyond the two seconds of the capture and
    then back. *)
Definition transcode_ok : child :=
  mkChild [Utf8 "time=00:00:01.00"; Utf8 "time=00:00:02.00"] 1 0 [].

Definition transcode_fails : child :=
  mkChild [Utf8 "time=00:00:01.00"] 0 1 [].

Definition transcode_killed : child :=
  mkChild [Utf8 "time=00:00:01.00"] 0 255 [].


(** A poll strategy that fails. *)
Definition failing_poll : Popen -> M (Popen * option timedelta) :=
  fun _ => raise (OSError "read failed").

(** A callback that does nothing, and one that fails on whatever it is
    given. *)
Definition silent : callback := fun _ => ret tt.

Definition broken : callback := fun _ => raise (OSError "broken pipe").

Definition machine0 : world :=
  mkWorld ["/home/u/out-0.ogv"] default_int_handler SIG_DFL [] [].

Definition taken : world :=
  mkWorld ["/home/u/out-0.ogv"; "/home/u/out-1.ogv"; "/home/u/out-2.ogv"]
          default_int_handler SIG_DFL [] [].


Definition encode_items : section_proxy :=
  [("-c:v", Ok "libtheora"); ("output", Ok "/home/u/out-{}.ogv"); ("-an", Ok "")].

(** A section in which the value of [-metadata] ends with a [%]. *)
Definition encode_items_percent : section_proxy :=
  [("-c:v", Ok "libtheora");
   ("-metadata", Raise (InterpolationSyntaxError "'%' must be followed by '%' or '('"));
   ("-an", Ok "")].

(** The command of the transcode for [encode_items]. *)
Definition transcode_call : list string :=
  ["ffmpeg"; "-nostdin"; "-i"; "/cache/tok/first.mkv"; "-c:v"; "libtheora"; "-an"; "-"].

Definition with_progress : invocation :=
  mkInvocation true 25 (0, 0, 640, 480) ":0" "/home/u/.cache" (Some "/cache") "tok"
               "/home/u/out-{}.ogv" (Some encode_items).

Definition without_progress : invocation :=
  mkInvocation false 25 (0, 0, 640, 480) ":0" "/home/u/.cache" (Some "/cache") "tok"
               "/home/u/out-{}.ogv" (Some encode_items).

Definition without_section : invocation :=
  mkInvocation true 25 (0, 0, 640, 480) ":0" "/home/u/.cache" (Some "/cache") "tok"
               "/home/u/out-{}.ogv" None.


(** A run with the cache directory left to XDG. *)
Definition with_xdg_cache : invocation :=
  mkInvocation true 25 (0, 0, 640, 480) ":0" "/home/u/.cache" None "tok"
               "/home/u/out-{}.ogv" (Some encode_items).

Definition recording : string := "/cache/tok/first.mkv".

(** The states a run on [machine0] goes through: after [get_cachedir],
    after [open_output_file], and after the capture [capture_2s]. *)
Definition machine1 : world :=
  mkWorld ["/cache/tok"; "/home/u/.cache/xrecord"; "/home/u/out-0.ogv"]
          default_int_handler SIG_DFL [] [].

Definition machine2 : world :=
  mkWorld ["/home/u/out-1.ogv"; "/cache/tok"; "/home/u/.cache/xrecord";
           "/home/u/out-0.ogv"]
          default_int_handler SIG_DFL [] [].

Definition machine3 : world :=
  mkWorld ["/cache/tok/first.mkv"; "/home/u/out-1.ogv"; "/cache/tok";
           "/home/u/.cache/xrecord"; "/home/u/out-0.ogv"]
          SIG_DFL SIG_DFL []
          [EvPopen (record_call recording 25 ":0" (0, 0, 640, 480)) Inherit PIPE;
           EvReadline (Utf8 "ffmpeg version"); EvPoll;
           EvReadline (Utf8 "frame=50 time=00:00:02.00 bitrate=N/A"); EvPoll].

(** Texts with numbers in them: literal text and integers in decimal. *)
Inductive piece : Type :=
| Txt (s : string)
| Num (z : Z).

Fixpoint render_onto (pieces : list piece) (rest : string) : string :=
  match pieces with
  | [] => rest
  | Txt s :: more => (s ++ render_onto more rest)%string
  | Num z :: more => (str z ++ render_onto more rest)%string
  end.

Definition nl : string := String newline EmptyString.

Definition dquote : ascii := ascii_of_nat 34.

(** The line in which xwininfo names the window: its id, and its title
    between quotes, or a note that it has none. *)
Definition window_line (id : string) (title : option string) : string :=
  match title with
  | Some t =>
      ("xwininfo: Window id: " ++ id ++ " " ++ String dquote t) ++
      String dquote EmptyString
  | None => ("xwininfo: Window id: " ++ id ++ " (has no name") ++ ")"
  end.

(** The statistics xwininfo prints for a window at [(x, y)] of the given
    size, down to the class of the window. *)
Definition stats_x_on (x : Z) : list piece :=
  [Txt nl; Txt nl; Txt "  ";
   Txt "Absolute upper-left X:"; Txt "  "; Num x; Txt nl; Txt "  "].

Definition stats_y_on (y : Z) : list piece :=
  [Txt "Absolute upper-left Y:"; Txt "  "; Num y; Txt nl;
   Txt "  Relative upper-left X:  0"; Txt nl;
   Txt "  Relative upper-left Y:  0"; Txt nl; Txt "  "].

Definition stats_width_on (width : Z) : list piece :=
  [Txt "Width:"; Txt " "; Num width; Txt nl; Txt "  "].

Definition stats_height_on (height : Z) : list piece :=
  [Txt "Height:"; Txt " "; Num height; Txt nl;
   Txt "  Depth: 24"; Txt nl; Txt "  Visual: 0x21"; Txt nl;
   Txt "  Visual Class: TrueColor"; Txt nl; Txt "  Border width: 0"; Txt nl;
   Txt "  Class: InputOutput"; Txt nl].

Definition stats_body (x y width height : Z) : string :=
  render_onto
    (stats_x_on x ++ stats_y_on y ++ stats_width_on width ++ stats_height_on height)
    EmptyString.

Definition xwininfo_stats (id : string) (title : option string)
           (x y width height : Z) : string :=
  (nl ++ window_line id title ++ stats_body x y width height)%string.














Definition xwininfo_prints (text : string) (call : list string) : result string :=
  Ok text.

Definition by_click : arguments := mkArguments true None None false.


(** A text with its capitals in lower case. *)
Fixpoint lowered (s : string) : string :=
  match s with
  | EmptyString => EmptyString
  | String c s' => String (lower c) (lowered s')
  end.

(** * Properties *)

(** ** The time stamp parser *)

Lemma match_here_sound re : forall s m,
  match_here re s = Some m ->
  Forall2 (fun a c => atom_matches a c = true) re (list_ascii_of_string m).
Proof.
  induction re as [|a re IH]; intros s m H; simpl in H.
  - injection H as <-. constructor.
  - destruct s as [|c s]; [discriminate|].
    destruct (atom_matches a c) eqn:Hac; [|discriminate].
    destruct (match_here re s) as [m'|] eqn:Hm; [|discriminate].
    injection H as <-. simpl. constructor; eauto.
Qed.

Lemma re_search_sound re : forall s m,
  re_search re s = Some m -> exists s', match_here re s' = Some m.
Proof.
  induction s as [|c s IH]; intros m H; simpl in H.
  - destruct (match_here re "") eqn:E; [injection H as <-; eauto | discriminate].
  - destruct (match_here re (String c s)) eqn:E.
    + injection H as <-; eauto.
    + eauto.
Qed.

Lemma re_search_here re s m :
  match_here re s = Some m -> re_search re s = Some m.
Proof. intros H. destruct s; simpl; rewrite H; reflexivity. Qed.

Lemma list_ascii_inj s t :
  list_ascii_of_string s = list_ascii_of_string t -> s = t.
Proof.
  intros H. rewrite <- (string_of_list_ascii_of_string s),
    <- (string_of_list_ascii_of_string t), H. reflexivity.
Qed.

(** A match of the pattern of the code is a time field whose eight digits
    are digits and whose separator is any character but the newline. *)
Lemma match_shape m :
  (exists s, match_here re_ffmpeg_progress s = Some m) ->
  exists h1 h2 m1 m2 s1 s2 sep c1 c2,
    m = time_field h1 h2 m1 m2 s1 s2 sep c1 c2 /\
    Forall (fun c => is_digit c = true) [h1; h2; m1; m2; s1; s2; c1; c2] /\
    sep <> newline.
Proof.
  intros [s H]. apply match_here_sound in H.
  unfold re_ffmpeg_progress in H; simpl in H.
  repeat match goal with
         | H : Forall2 _ (_ :: _) _ |- _ => inversion H; clear H; subst
         | H : Forall2 _ [] _ |- _ => inversion H; clear H; subst
         end.
  repeat match goal with
         | H : atom_matches (Chr _) _ = true |- _ =>
             cbn [atom_matches] in H; apply Ascii.eqb_eq in H; subst
         | H : atom_matches Digit _ = true |- _ => cbn [atom_matches] in H
         | H : atom_matches AnyChar _ = true |- _ =>
             cbn [atom_matches] in H; apply negb_true_iff in H;
             apply Ascii.eqb_neq in H
         end.
  match goal with
  | H : ?l = list_ascii_of_string m |- _ =>
      match l with
      | [_; _; _; _; _; ?h1; ?h2; _; ?m1; ?m2; _; ?s1; ?s2; ?sep; ?c1; ?c2] =>
          exists h1, h2, m1, m2, s1, s2, sep, c1, c2;
          symmetry in H;
          change (list_ascii_of_string m =
                  list_ascii_of_string (time_field h1 h2 m1 m2 s1 s2 sep c1 c2)) in H;
          apply list_ascii_inj in H
      end
  end.
  repeat split; auto 10.
Qed.

Lemma digit_value_range c : is_digit c = true -> 0 <= digit_value c <= 9.
Proof.
  unfold is_digit, digit_value. intros H.
  apply andb_true_iff in H as [H1 H2].
  apply N.leb_le in H1, H2. lia.
Qed.

Lemma int_two_digits a b :
  is_digit a = true -> is_digit b = true ->
  int_digits 0 (String a (String b EmptyString)) = Some (int2 a b).
Proof. intros Ha Hb. simpl. rewrite Ha, Hb. reflexivity. Qed.

Lemma stamp_time_field h1 h2 m1 m2 s1 s2 sep c1 c2 :
  Forall (fun c => is_digit c = true) [h1; h2; m1; m2; s1; s2; c1; c2] ->
  stamp (time_field h1 h2 m1 m2 s1 s2 sep c1 c2) =
  mk_timedelta (int2 h1 h2) (int2 m1 m2) (int2 s1 s2) (int2 c1 c2 * 10000).
Proof.
  intros D.
  repeat match goal with
         | H : Forall _ (_ :: _) |- _ => inversion H; clear H; subst
         end.
  unfold stamp, groups, num, time_field; cbn [append substring].
  rewrite !int_two_digits by assumption. reflexivity.
Qed.

(** [int] never raises on a group of a match, so the parser returns on every
    line: the time stamp of the line, or nothing. *)
Lemma extract_ffmpeg_time_parsed line :
  extract_ffmpeg_time line = Ok (parsed line).
Proof.
  unfold extract_ffmpeg_time, parsed.
  destruct (re_search re_ffmpeg_progress line) as [m|] eqn:Hs; [|reflexivity].
  destruct (match_shape _ (re_search_sound _ _ _ Hs))
    as (h1 & h2 & m1 & m2 & s1 & s2 & sep & c1 & c2 & -> & D & _).
  simpl option_map. rewrite stamp_time_field by assumption.
  repeat match goal with
         | H : Forall _ (_ :: _) |- _ => inversion H; clear H; subst
         end.
  unfold groups, time_field, int; cbn [append substring].
  rewrite !int_two_digits by assumption. reflexivity.
Qed.


(** A line that starts with a time field in which the separator is the
    dot yields the duration the field spells. *)
Lemma extract_ffmpeg_time_field h1 h2 m1 m2 s1 s2 c1 c2 rest :
  Forall (fun c => is_digit c = true) [h1; h2; m1; m2; s1; s2; c1; c2] ->
  extract_ffmpeg_time (time_field h1 h2 m1 m2 s1 s2 "." c1 c2 ++ rest) =
  Ok (Some (mk_timedelta (int2 h1 h2) (int2 m1 m2) (int2 s1 s2) (int2 c1 c2 * 10000))).
Proof.
  intros D. rewrite extract_ffmpeg_time_parsed. unfold parsed.
  rewrite (re_search_here _ _ (time_field h1 h2 m1 m2 s1 s2 "." c1 c2)).
  - simpl option_map. rewrite stamp_time_field by assumption. reflexivity.
  - repeat match goal with
           | H : Forall _ (_ :: _) |- _ => inversion H; clear H; subst
           end.
    unfold time_field, re_ffmpeg_progress.
    cbn [append literal app match_here atom_matches].
    rewrite !Ascii.eqb_refl.
    repeat match goal with
           | H : is_digit ?c = true |- context [is_digit ?c] => rewrite H
           end.
    reflexivity.
Qed.

(** Every match of the pattern with the literal dot is a match of the
    pattern of the code, so a line that holds a time field yields a
    duration: that of the leftmost match of the code's pattern. *)
Lemma match_here_weaken re re' :
  Forall2 (fun a b => forall c, atom_matches a c = true -> atom_matches b c = true)
          re re' ->
  forall s m, match_here re s = Some m -> match_here re' s = Some m.
Proof.
  induction 1 as [|a b re re' Hab _ IH]; intros s m H; [exact H|].
  simpl in *. destruct s as [|c s]; [discriminate|].
  destruct (atom_matches a c) eqn:Ha; [|discriminate].
  rewrite (Hab c Ha).
  destruct (match_here re s) as [m'|] eqn:Hm; [|discriminate].
  rewrite (IH _ _ Hm). exact H.
Qed.

Lemma literal_field_matches s m :
  match_here re_timestamp_literal s = Some m ->
  match_here re_ffmpeg_progress s = Some m.
Proof.
  apply match_here_weaken.
  unfold re_timestamp_literal, re_ffmpeg_progress; simpl.
  repeat (constructor; [solve [auto]|]).
  constructor.
  - intros c H. cbn [atom_matches] in *. apply Ascii.eqb_eq in H. subst c. reflexivity.
  - repeat (constructor; [solve [auto]|]). constructor.
Qed.

Lemma parsed_when_spec_timestamp line d :
  spec_timestamp line = Some d -> exists d', parsed line = Some d'.
Proof.
  unfold spec_timestamp, parsed.
  destruct (re_search re_timestamp_literal line) as [m|] eqn:Hs; [|discriminate].
  intros _. clear d.
  assert (H : exists m', re_search re_ffmpeg_progress line = Some m').
  { revert m Hs. induction line as [|c line IH]; intros m Hs.
    - discriminate Hs.
    - cbn [re_search] in Hs.
      destruct (match_here re_timestamp_literal (String c line)) eqn:E.
      + apply literal_field_matches in E.
        exists s. apply re_search_here. exact E.
      + destruct (IH _ Hs) as [m' Hm'].
        cbn [re_search].
        destruct (match_here re_ffmpeg_progress (String c line)); eauto. }
  destruct H as [m' ->]. simpl. eauto.
Qed.

(** ** The poll loops *)

Lemma add_events_nil w : add_events [] w = w.
Proof. destruct w; unfold add_events; simpl; rewrite app_nil_r; reflexivity. Qed.

Lemma add_events_app a b w : add_events b (add_events a w) = add_events (a ++ b) w.
Proof. unfold add_events; simpl; rewrite app_assoc; reflexivity. Qed.

Lemma add_event_events ev w : add_event ev w = add_events [ev] w.
Proof. reflexivity. Qed.

Lemma remaining_step proc :
  returncode proc = None ->
  remaining proc = S (remaining (poll (advance proc))).
Proof.
  intros H. unfold remaining, poll, advance; simpl; rewrite H.
  destruct (alive proc); reflexivity.
Qed.

Lemma stderr_step proc lines :
  stderr proc = Some lines -> stderr (poll (advance proc)) = Some (tl lines).
Proof.
  intros H. unfold poll, advance; simpl; rewrite H.
  destruct (returncode proc); [|destruct (alive proc)]; reflexivity.
Qed.

Lemma status_step proc : status (poll (advance proc)) = status proc.
Proof.
  unfold poll, advance; simpl.
  destruct (returncode proc); [|destruct (alive proc)]; reflexivity.
Qed.

(** A loop that is left has seen the child exit, with its exit status. *)
Lemma drained_returncode proc :
  returncode proc = None ->
  returncode (drained (remaining proc) proc) = Some (status proc).
Proof.
  remember (remaining proc) as n eqn:Hn.
  revert proc Hn; induction n as [|n IH]; intros proc Hn Hrun.
  - unfold remaining in Hn; rewrite Hrun in Hn; discriminate.
  - simpl. rewrite (remaining_step _ Hrun) in Hn. injection Hn as Hn.
    destruct (returncode (poll (advance proc))) as [c|] eqn:Hrc.
    + assert (n = O) as -> by (unfold remaining in Hn; rewrite Hrc in Hn; exact Hn).
      simpl. rewrite Hrc.
      unfold poll, advance in Hrc; simpl in Hrc; rewrite Hrun in Hrc.
      destruct (alive proc); simpl in Hrc; congruence.
    + rewrite (IH _ Hn Hrc). f_equal. apply status_step.
Qed.

(** One turn of the capture loop: the line is read, and the turn ends with
    the [UnicodeDecodeError] of a line that is not UTF-8. *)
Lemma capture_turn_spec duration proc lines w :
  stderr proc = Some lines ->
  capture_turn duration proc w =
  (add_event (EvReadline (hd (Utf8 EmptyString) lines)) w,
   match hd (Utf8 EmptyString) lines with
   | Utf8 text => Ok (match parsed text with Some t => Some t | None => duration end)
   | NotUtf8 bytes => Raise (UnicodeDecodeError bytes)
   end).
Proof.
  intros H. unfold capture_turn, readline, bind, lift, log, modify, ret.
  rewrite H; simpl.
  destruct (hd (Utf8 EmptyString) lines) as [text|bytes]; simpl; [|reflexivity].
  rewrite extract_ffmpeg_time_parsed.
  destruct (parsed text); reflexivity.
Qed.

(** [ffmpeg_capture_duration] reads one line per turn until a poll finds
    the child gone, and keeps the last time stamp; a line that is not UTF-8
    ends it with [UnicodeDecodeError].  It only adds to the trace. *)
Lemma capture_loop_spec duration proc w : forall lines,
  stderr proc = Some lines ->
  capture_loop duration proc w =
  (add_events (capture_trace (lines_read (remaining proc) lines)) w,
   match garbled (lines_read (remaining proc) lines) with
   | Some bytes => Raise (UnicodeDecodeError bytes)
   | None => Ok (drained (remaining proc) proc,
                 last_stamp duration (texts (lines_read (remaining proc) lines)))
   end).
Proof.
  functional induction (capture_loop duration proc w); intros lines Hs.
  - match goal with H : returncode _ = Some _ |- _ => unfold remaining; rewrite H end.
    simpl. rewrite add_events_nil. reflexivity.
  - match goal with
    | H : returncode _ = None |- _ => rewrite (remaining_step _ H)
    end.
    match goal with
    | H : capture_turn _ _ _ = _ |- _ => rewrite (capture_turn_spec _ _ _ _ Hs) in H
    end.
    cbn [lines_read].
    destruct (hd (Utf8 EmptyString) lines) as [text|bytes]; [discriminate|].
    match goal with H : (_, _) = (_, _) |- _ => injection H as <- <- end.
    reflexivity.
  - match goal with
    | H : capture_turn _ _ _ = _ |- _ => rewrite (capture_turn_spec _ _ _ _ Hs) in H
    end.
    match goal with
    | IH : forall _, _ -> _ |- _ => rewrite (IH _ (stderr_step _ _ Hs))
    end.
    match goal with
    | H : returncode _ = None |- _ => rewrite (remaining_step _ H)
    end.
    cbn [lines_read].
    destruct (hd (Utf8 EmptyString) lines) as [text|bytes]; [|discriminate].
    match goal with H : (_, _) = (_, _) |- _ => injection H as <- <- end.
    cbn [capture_trace garbled texts].
    rewrite !add_event_events, !add_events_app. reflexivity.
Qed.

Lemma last_stamp_stamps lines : forall duration,
  last_stamp duration lines = last (map Some (stamps lines)) duration.
Proof.
  unfold last_stamp.
  induction lines as [|line rest IH]; intros duration; simpl; [reflexivity|].
  rewrite IH. destruct (parsed line) as [t|]; [|reflexivity].
  simpl. destruct (map Some (stamps rest)) eqn:E; [reflexivity|].
  clear. revert o; induction l as [|x l IH]; intros o; [reflexivity|].
  simpl. destruct l; [reflexivity|]. apply (IH x).
Qed.

Lemma progress_turn_spec progress_cb proc lines w :
  stderr proc = Some lines ->
  progress_turn progress_cb proc w =
  match hd (Utf8 EmptyString) lines with
  | Utf8 text =>
      match parsed text with
      | Some t => call progress_cb (Some t) (add_event (EvReadline (Utf8 text)) w)
      | None => (add_event (EvReadline (Utf8 text)) w, Ok tt)
      end
  | NotUtf8 bytes =>
      (add_event (EvReadline (NotUtf8 bytes)) w, Raise (UnicodeDecodeError bytes))
  end.
Proof.
  intros H. unfold progress_turn, readline, bind, lift, log, modify, ret.
  rewrite H; simpl.
  destruct (hd (Utf8 EmptyString) lines) as [text|bytes]; simpl; [|reflexivity].
  rewrite extract_ffmpeg_time_parsed.
  destruct (parsed text); reflexivity.
Qed.

Lemma play_read cb raw rest w :
  play cb (Read raw :: rest) w = play cb rest (add_event (EvReadline raw) w).
Proof. reflexivity. Qed.

Lemma play_poll cb rest w :
  play cb (Poll :: rest) w = play cb rest (add_event EvPoll w).
Proof. reflexivity. Qed.

Lemma play_fail cb e rest w : play cb (Fail e :: rest) w = (w, Raise e).
Proof. reflexivity. Qed.

Lemma play_call cb sample rest w :
  play cb (Call sample :: rest) w =
  match call cb sample w with
  | (w', Ok _) => play cb rest w'
  | (w', Raise e) => (w', Raise e)
  end.
Proof. reflexivity. Qed.

(** The loop of [ffmpeg_progress] and the call that follows it take the
    steps of [turns], whatever the callback does: they end where the first
    step raises, and return the process object once the child is gone. *)
Lemma progress_loop_plays progress_cb proc w : forall lines,
  stderr proc = Some lines ->
  (proc' <- progress_loop progress_cb proc ;;
   call progress_cb None ;;
   ret (proc', @None timedelta)) w =
  (fst (play progress_cb (turns (lines_read (remaining proc) lines)) w),
   outcome_of (snd (play progress_cb (turns (lines_read (remaining proc) lines)) w))
              (Ok (drained (remaining proc) proc, None))).
Proof.
  unfold bind at 1.
  functional induction (progress_loop progress_cb proc w); intros lines Hs.
  - match goal with H : returncode _ = Some _ |- _ => unfold remaining; rewrite H end.
    cbn [lines_read turns drained]. rewrite play_call.
    unfold bind, ret.
    destruct (call progress_cb None w) as [w' [[]|err]]; reflexivity.
  - match goal with
    | H : returncode _ = None |- _ => rewrite (remaining_step _ H)
    end.
    match goal with
    | H : progress_turn _ _ _ = _ |- _ => rewrite (progress_turn_spec _ _ _ _ Hs) in H
    end.
    cbn [lines_read].
    destruct (hd (Utf8 EmptyString) lines) as [text|bytes]; cbn [turns].
    + rewrite play_read. destruct (parsed text) as [t|]; [|discriminate].
      cbn [app]. rewrite play_call.
      match goal with H : call _ _ _ = _ |- _ => rewrite H end. reflexivity.
    + match goal with H : (_, _) = (_, _) |- _ => injection H as <- <- end.
      rewrite play_read, play_fail. reflexivity.
  - match goal with
    | IH : forall _, _ -> _ |- _ => rewrite (IH _ (stderr_step _ _ Hs))
    end.
    match goal with
    | H : returncode _ = None |- _ => rewrite (remaining_step _ H)
    end.
    match goal with
    | H : progress_turn _ _ _ = _ |- _ => rewrite (progress_turn_spec _ _ _ _ Hs) in H
    end.
    cbn [lines_read drained].
    destruct (hd (Utf8 EmptyString) lines) as [text|bytes]; cbn [turns];
      [|discriminate].
    rewrite play_read. destruct (parsed text) as [t|]; cbn [app].
    + rewrite play_call.
      match goal with H : call _ _ _ = _ |- _ => rewrite H end.
      rewrite play_poll. reflexivity.
    + match goal with H : (_, _) = (_, _) |- _ => injection H as <- _ end.
      rewrite play_poll. reflexivity.
Qed.

(** [ffmpeg_progress] takes the steps of the progress script, for every
    callback. *)
Lemma ffmpeg_progress_plays progress_cb proc w lines :
  stderr proc = Some lines ->
  ffmpeg_progress progress_cb proc w =
  (fst (play progress_cb (progress_script (lines_read (remaining proc) lines)) w),
   outcome_of
     (snd (play progress_cb (progress_script (lines_read (remaining proc) lines)) w))
     (Ok (drained (remaining proc) proc, None))).
Proof.
  intros Hs. unfold ffmpeg_progress, progress_script. rewrite play_call.
  unfold bind at 1.
  destruct (call progress_cb (Some timedelta0) w) as [w1 [[]|err]]; [|reflexivity].
  apply progress_loop_plays. exact Hs.
Qed.

(** Whatever the callback does, a loop that is left normally has run until
    a poll found the child gone. *)
Lemma progress_loop_result progress_cb proc w w' proc' :
  progress_loop progress_cb proc w = (w', Ok proc') ->
  proc' = drained (remaining proc) proc.
Proof.
  functional induction (progress_loop progress_cb proc w); intros H.
  - match goal with E : returncode _ = Some _ |- _ => unfold remaining; rewrite E end.
    injection H as _ <-. reflexivity.
  - discriminate.
  - match goal with
    | E : returncode _ = None |- _ => rewrite (remaining_step _ E)
    end. simpl. auto.
Qed.

(** *** What a script holds *)

Lemma script_calls_turns lines :
  script_calls (turns lines) =
  map Some (stamps (texts lines)) ++
  match garbled lines with None => [None] | Some _ => [] end.
Proof.
  induction lines as [|[text|bytes] rest IH]; cbn [turns texts garbled stamps];
    try reflexivity.
  cbn [script_calls]. destruct (parsed text) as [t|]; cbn; rewrite IH; reflexivity.
Qed.

Lemma script_failure_turns lines :
  script_failure (turns lines) = option_map UnicodeDecodeError (garbled lines).
Proof.
  induction lines as [|[text|bytes] rest IH]; cbn [turns garbled]; try reflexivity.
  cbn [script_failure]. destruct (parsed text) as [t|]; cbn; exact IH.
Qed.

(** With a callback that returns, a play goes through the whole script, or
    up to its failure. *)
Lemma play_returns cb : returns_normally cb ->
  forall script w,
    snd (play cb script w) =
    match script_failure script with Some e => Raise e | None => Ok tt end.
Proof.
  intros Hret. induction script as [|[sample|raw| |err] rest IH]; intros w.
  - reflexivity.
  - rewrite play_call. unfold call, bind, log, modify.
    specialize (Hret sample (add_event (EvCall sample) w)).
    destruct (cb sample (add_event (EvCall sample) w)) as [w' r].
    cbn [snd] in Hret. subst r. cbn [script_failure]. apply IH.
  - rewrite play_read. apply IH.
  - rewrite play_poll. apply IH.
  - reflexivity.
Qed.

(** ** Frame conditions *)

Section Frames.

(** A relation between the state before and after, such as "the files
    that existed still exist" or "the trace only grew, by events of some
    kind". *)
Variable R : world -> world -> Prop.
Hypothesis R_refl : forall w, R w w.
Hypothesis R_trans : forall a b c, R a b -> R b c -> R a c.

Lemma stable_ret A (a : A) : stable R (ret a).
Proof. intros w; apply R_refl. Qed.

Lemma stable_raise A e : stable R (@raise A e).
Proof. intros w; apply R_refl. Qed.

Lemma stable_lift A (r : result A) : stable R (lift r).
Proof. intros w; apply R_refl. Qed.

Lemma stable_modify f : (forall w, R w (f w)) -> stable R (modify f).
Proof. intros H w; apply H. Qed.

Lemma stable_log ev : admits R ev -> stable R (log ev).
Proof. intros H w; apply H. Qed.

Lemma stable_bind A B (m : M A) (k : A -> M B) :
  stable R m -> (forall a, stable R (k a)) -> stable R (bind m k).
Proof.
  intros Hm Hk w. unfold bind. specialize (Hm w).
  destruct (m w) as [w1 [a|e]]; simpl in *; [|assumption].
  eapply R_trans; [eassumption | apply Hk].
Qed.

Lemma stable_try_finally A (body : M A) final :
  stable R body -> stable R final -> stable R (try_finally body final).
Proof.
  intros Hb Hf w. unfold try_finally. specialize (Hb w).
  destruct (body w) as [w1 r]. specialize (Hf w1).
  destruct (final w1) as [w2 [[]|e]]; simpl in *; eapply R_trans; eassumption.
Qed.

Lemma stable_try_except_reraise A (body : M A) handler :
  stable R body -> stable R handler -> stable R (try_except_reraise body handler).
Proof.
  intros Hb Hh w. unfold try_except_reraise. specialize (Hb w).
  destruct (body w) as [w1 [a|e]]; simpl in *; [assumption|].
  specialize (Hh w1).
  destruct (handler w1) as [w2 [[]|e']]; simpl in *; eapply R_trans; eassumption.
Qed.

Lemma stable_readline proc :
  (forall line, admits R (EvReadline line)) -> stable R (readline proc).
Proof.
  intros H. unfold readline. destruct (stderr proc).
  - apply stable_bind; [apply stable_log, H | intros; apply stable_ret].
  - apply stable_raise.
Qed.

Lemma stable_call progress_cb sample :
  admits R (EvCall sample) -> stable R (progress_cb sample) ->
  stable R (call progress_cb sample).
Proof. intros; apply stable_bind; [apply stable_log|]; auto. Qed.

Lemma stable_progress_loop progress_cb proc :
  (forall line, admits R (EvReadline line)) -> admits R EvPoll ->
  (forall sample, admits R (EvCall sample)) ->
  (forall sample, stable R (progress_cb sample)) ->
  stable R (progress_loop progress_cb proc).
Proof.
  intros Hline Hpoll Hcall Hcb w.
  assert (Hturn : forall p, stable R (progress_turn progress_cb p)).
  { intros p. unfold progress_turn.
    apply stable_bind; [apply stable_readline, Hline | intros raw].
    apply stable_bind; [apply stable_lift | intros line].
    apply stable_bind; [apply stable_lift | intros [t|]].
    - apply stable_call; auto.
    - apply stable_ret. }
  functional induction (progress_loop progress_cb proc w); simpl.
  - apply R_refl.
  - match goal with
    | H : progress_turn _ ?p ?w0 = _ |- _ =>
        pose proof (Hturn p w0) as Ht; rewrite H in Ht; exact Ht
    end.
  - match goal with
    | H : progress_turn _ ?p ?w0 = (?w1, _) |- _ =>
        pose proof (Hturn p w0) as Ht; rewrite H in Ht; simpl in Ht;
        apply (R_trans _ _ _ Ht); apply (R_trans _ _ _ (Hpoll w1)); assumption
    end.
Qed.

Lemma stable_ffmpeg_progress progress_cb proc :
  (forall line, admits R (EvReadline line)) -> admits R EvPoll ->
  (forall sample, admits R (EvCall sample)) ->
  (forall sample, stable R (progress_cb sample)) ->
  stable R (ffmpeg_progress progress_cb proc).
Proof.
  intros Hline Hpoll Hcall Hcb. unfold ffmpeg_progress.
  apply stable_bind; [apply stable_call; auto | intros _].
  apply stable_bind; [apply stable_progress_loop; auto | intros p].
  apply stable_bind; [apply stable_call; auto | intros _].
  apply stable_ret.
Qed.

End Frames.

(** ** The supervised run *)

Section Supervised.

Variable spawn : list string -> launch.

Lemma run_launched call so se wait_fun c w :
  spawn call = Launched c ->
  run_with_signal_forwarding spawn call so se wait_fun w =
  let '(w2, r) :=
    match wait_fun with
    | None => (add_event EvWait (supervised call so se c w),
               Ok (wait (fresh call se c), None))
    | Some f => f (fresh call se c) (supervised call so se c w)
    end in
  (restored w2, r).
Proof.
  intros H.
  unfold run_with_signal_forwarding, popen, bind, log, modify, try_finally,
    signal_SIGINT, signal_SIGTERM, ret.
  simpl. rewrite H. simpl.
  destruct wait_fun as [f|]; [|reflexivity].
  change (set_sigterm term_handler
            (set_sigint term_handler
               (set_fs (fun f0 => creates c ++ f0)
                  (add_event (EvPopen call so se) w))))
    with (supervised call so se c w).
  fold (fresh call se c).
  destruct (f (fresh call se c) (supervised call so se c w)) as [w2 r].
  reflexivity.
Qed.

Lemma run_launch_fails call so se wait_fun e w :
  spawn call = LaunchFails e ->
  run_with_signal_forwarding spawn call so se wait_fun w =
  (add_event (EvPopen call so se) w, Raise e).
Proof.
  intros H.
  unfold run_with_signal_forwarding, popen, bind, log, modify, raise.
  simpl. rewrite H. reflexivity.
Qed.

(** C7.  Once the child is launched and the handlers are installed, every
    way out of [run_with_signal_forwarding] leaves SIGINT and SIGTERM at
    their default disposition: the plain wait, the return of the poll
    strategy, and an exception raised by the poll strategy, whatever that
    strategy does to the state. *)
Theorem run_with_signal_forwarding_restores_handlers
        call so se wait_fun c w :
  spawn call = Launched c ->
  sigint (fst (run_with_signal_forwarding spawn call so se wait_fun w)) = SIG_DFL /\
  sigterm (fst (run_with_signal_forwarding spawn call so se wait_fun w)) = SIG_DFL.
Proof.
  intros H. rewrite (run_launched _ _ _ _ _ _ H).
  destruct wait_fun as [f|].
  - destruct (f (fresh call se c) (supervised call so se c w)) as [w2 r].
    split; reflexivity.
  - split; reflexivity.
Qed.

(** X10.  The exception of the poll strategy is the one the supervised run
    raises: restoring the handlers does not mask it, and what the strategy
    did to the state before it failed stays, the handlers apart. *)
Lemma run_propagates call so se f c w w2 e :
  spawn call = Launched c ->
  f (fresh call se c) (supervised call so se c w) = (w2, Raise e) ->
  run_with_signal_forwarding spawn call so se (Some f) w = (restored w2, Raise e).
Proof. intros H Hf. rewrite (run_launched _ _ _ _ _ _ H), Hf. reflexivity. Qed.

(** *** The capture stage *)

(** The whole effect of [record] on a child that was launched. *)
Lemma record_launched cachefile framerate display geometry c w :
  spawn (record_call cachefile framerate display geometry) = Launched c ->
  record spawn cachefile framerate display geometry w =
  (mkWorld (creates c ++ fs w) SIG_DFL SIG_DFL (terminal w)
           (trace w ++
            EvPopen (record_call cachefile framerate display geometry) Inherit PIPE ::
            capture_trace (lines_seen c)),
   match garbled (lines_seen c) with
   | Some bytes => Raise (UnicodeDecodeError bytes)
   | None =>
       capture_verdict (record_call cachefile framerate display geometry) c
                       (last_stamp None (texts (lines_seen c)))
   end).
Proof.
  intros H. unfold record, bind.
  rewrite (run_launched _ _ _ _ _ _ H).
  unfold ffmpeg_capture_duration.
  rewrite (capture_loop_spec None (fresh _ PIPE c) _ (stderr_lines c) eq_refl).
  change (remaining (fresh _ PIPE c)) with (S (lifetime c)).
  fold (lines_seen c).
  unfold restored, add_events, supervised; simpl fs; simpl terminal; simpl trace.
  rewrite <- app_assoc. simpl app.
  destruct (garbled (lines_seen c)) as [bytes|]; [reflexivity|].
  pose proof (drained_returncode (fresh (record_call cachefile framerate display geometry)
                                        PIPE c) eq_refl) as Hrc.
  change (remaining (fresh _ PIPE c)) with (S (lifetime c)) in Hrc.
  rewrite Hrc.
  change (status (fresh _ PIPE c)) with (exit_status c).
  unfold capture_verdict.
  destruct (capture_accepts (Some (exit_status c))); reflexivity.
Qed.

Lemma record_launch_fails cachefile framerate display geometry e w :
  spawn (record_call cachefile framerate display geometry) = LaunchFails e ->
  record spawn cachefile framerate display geometry w =
  (add_event (EvPopen (record_call cachefile framerate display geometry) Inherit PIPE) w,
   Raise e).
Proof.
  intros H. unfold record, bind. rewrite (run_launch_fails _ _ _ _ _ _ H). reflexivity.
Qed.


End Supervised.

(** ** The encode stage *)

Lemma delivered_app a b : delivered (a ++ b) = delivered a ++ delivered b.
Proof.
  induction a as [|ev a IH]; [reflexivity|].
  destruct ev; simpl; rewrite IH; reflexivity.
Qed.

Lemma delivered_script_events script :
  delivered (script_events script) = script_calls script.
Proof.
  induction script as [|[sample|raw| |err] rest IH]; cbn; congruence.
Qed.



Lemma events_since_app w w' evs :
  trace w' = trace w ++ evs -> events_since w w' = evs.
Proof.
  intros H. unfold events_since. rewrite H.
  rewrite skipn_app, skipn_all, Nat.sub_diag. reflexivity.
Qed.

Lemma ffmpeg_progress_result progress_cb proc w w' proc' r :
  ffmpeg_progress progress_cb proc w = (w', Ok (proc', r)) ->
  proc' = drained (remaining proc) proc.
Proof.
  unfold ffmpeg_progress, bind, ret.
  destruct (call progress_cb (Some timedelta0) w) as [w1 [[]|e]]; [|discriminate].
  destruct (progress_loop progress_cb proc w1) as [w2 [p|e]] eqn:Hloop; [|discriminate].
  destruct (call progress_cb None w2) as [w3 [[]|e]]; [|discriminate].
  intros [= _ <- _]. eapply progress_loop_result; eassumption.
Qed.


Lemma script_calls_progress lines :
  script_calls (progress_script lines) =
  Some timedelta0 :: map Some (stamps (texts lines)) ++
  match garbled lines with None => [None] | Some _ => [] end.
Proof.
  unfold progress_script. cbn [script_calls]. rewrite script_calls_turns. reflexivity.
Qed.

Lemma script_failure_progress lines :
  script_failure (progress_script lines) = option_map UnicodeDecodeError (garbled lines).
Proof. unfold progress_script. cbn [script_failure]. apply script_failure_turns. Qed.

Section EncodeStage.

Variable spawn : list string -> launch.

(** A lookup in the section that raises ends [encode] before anything is
    launched. *)
Lemma encode_no_call source_file output_file config_section progress_cb e w :
  encode_call source_file config_section = Raise e ->
  encode spawn source_file output_file config_section progress_cb w = (w, Raise e).
Proof. intros H. unfold encode, bind, lift. rewrite H. reflexivity. Qed.

(** [encode] with a callback takes the steps of the progress script, for
    every callback, between the launch and the reset of the handlers; when
    the steps are through, the exit status decides. *)
Lemma encode_plays source_file output_file config_section call cb c w :
  encode_call source_file config_section = Ok call ->
  spawn call = Launched c ->
  encode spawn source_file output_file config_section (Some cb) w =
  (restored (fst (play cb (progress_script (lines_seen c))
                       (supervised call (ToFile (name output_file)) PIPE c w))),
   outcome_of (snd (play cb (progress_script (lines_seen c))
                         (supervised call (ToFile (name output_file)) PIPE c w)))
              (encode_verdict call c)).
Proof.
  intros Hcall H. unfold encode, lift. unfold bind at 1. rewrite Hcall.
  unfold bind. rewrite (run_launched _ _ _ _ _ _ _ H).
  rewrite (ffmpeg_progress_plays cb (fresh call PIPE c) _ (stderr_lines c) eq_refl).
  change (remaining (fresh call PIPE c)) with (S (lifetime c)).
  fold (lines_seen c).
  destruct (play cb (progress_script (lines_seen c))
                 (supervised call (ToFile (name output_file)) PIPE c w)) as [w2 [[]|e]];
    cbn [fst snd outcome_of]; [|reflexivity].
  pose proof (drained_returncode (fresh call PIPE c) eq_refl) as Hrc.
  change (remaining (fresh call PIPE c)) with (S (lifetime c)) in Hrc.
  rewrite Hrc.
  change (status (fresh call PIPE c)) with (exit_status c).
  unfold encode_verdict. destruct (exit_status c =? 0); reflexivity.
Qed.

(** A callback that raises on the zero sample ends [encode] there. *)
Lemma encode_callback_error source_file output_file config_section ffmpeg_call
      (cb : callback) c w :
  encode_call source_file config_section = Ok ffmpeg_call ->
  spawn ffmpeg_call = Launched c ->
  forall w1 e,
    cb (Some timedelta0)
       (add_event (EvCall (Some timedelta0))
          (supervised ffmpeg_call (ToFile (name output_file)) PIPE c w)) =
      (w1, Raise e) ->
    encode spawn source_file output_file config_section (Some cb) w =
    (restored w1, Raise e).
Proof.
  intros Hcall H w1 e Hcb. rewrite (encode_plays _ _ _ _ _ _ _ Hcall H).
  unfold progress_script. rewrite play_call.
  unfold call, bind, log, modify. rewrite Hcb. reflexivity.
Qed.

(** [encode] without a callback. *)
Lemma encode_waits source_file output_file config_section call c w :
  encode_call source_file config_section = Ok call ->
  spawn call = Launched c ->
  encode spawn source_file output_file config_section None w =
  (mkWorld (creates c ++ fs w) SIG_DFL SIG_DFL (terminal w)
           (trace w ++ [EvPopen call (ToFile (name output_file)) DEVNULL; EvWait]),
   encode_verdict call c).
Proof.
  intros Hcall H. unfold encode, lift. unfold bind at 1. rewrite Hcall.
  unfold bind. rewrite (run_launched _ _ _ _ _ _ _ H).
  unfold restored, add_event, supervised, encode_verdict; cbn.
  rewrite <- app_assoc. cbn.
  destruct (exit_status c =? 0); reflexivity.
Qed.

(** A normal return of [encode] means the child was seen to exit with
    status 0, whatever the callback does. *)
Lemma encode_ok_status source_file output_file config_section call progress_cb c w :
  encode_call source_file config_section = Ok call ->
  spawn call = Launched c ->
  snd (encode spawn source_file output_file config_section progress_cb w) = Ok tt ->
  exit_status c = 0.
Proof.
  intros Hcall H. destruct progress_cb as [cb|].
  - rewrite (encode_plays _ _ _ _ _ _ _ Hcall H). cbn [snd].
    destruct (snd (play cb _ _)) as [[]|e]; cbn [outcome_of]; [|discriminate].
    unfold encode_verdict. destruct (exit_status c =? 0) eqn:E; [|discriminate].
    intros _. apply Z.eqb_eq; assumption.
  - rewrite (encode_waits _ _ _ _ _ _ Hcall H). cbn [snd].
    unfold encode_verdict. destruct (exit_status c =? 0) eqn:E; [|discriminate].
    intros _. apply Z.eqb_eq; assumption.
Qed.




End EncodeStage.

(** ** The output file allocator *)

Section Allocator.

Variable str_format : string -> nat -> result string.
Variable refused : string -> option refusal.

Lemma refusal_error_other path r :
  match refusal_error path r with FileExistsError _ => False | _ => True end.
Proof. destruct r; exact I. Qed.

Lemma try_slots_taken pattern path w : forall slots,
  (forall i, In i slots ->
     str_format pattern i = Ok (path i) /\
     refused (path i) = None /\ exists_path (path i) w = true) ->
  try_slots str_format refused pattern slots w = (w, Raise (FileExistsError pattern)).
Proof.
  induction slots as [|i rest IH]; intros H; [reflexivity|].
  destruct (H i (or_introl eq_refl)) as (Hf & Hr & He).
  simpl. unfold bind, lift, open_x. rewrite Hf, Hr, He.
  apply IH. intros j Hj. apply H. right; assumption.
Qed.

Lemma try_slots_first_free pattern path w i post : forall pre,
  (forall j, In j pre ->
     str_format pattern j = Ok (path j) /\
     refused (path j) = None /\ exists_path (path j) w = true) ->
  str_format pattern i = Ok (path i) ->
  refused (path i) = None ->
  exists_path (path i) w = false ->
  try_slots str_format refused pattern (pre ++ i :: post) w =
  (set_fs (cons (path i)) w, Ok (mkFile (path i))).
Proof.
  induction pre as [|j pre IH]; intros H Hf Hr He.
  - simpl. unfold bind, lift, open_x. rewrite Hf, Hr, He. reflexivity.
  - destruct (H j (or_introl eq_refl)) as (Hfj & Hrj & Hej).
    simpl. unfold bind, lift, open_x. rewrite Hfj, Hrj, Hej.
    apply IH; auto. intros k Hk. apply H. right; assumption.
Qed.

Lemma try_slots_refused pattern path w i r post : forall pre,
  (forall j, In j pre ->
     str_format pattern j = Ok (path j) /\
     refused (path j) = None /\ exists_path (path j) w = true) ->
  str_format pattern i = Ok (path i) ->
  refused (path i) = Some r ->
  try_slots str_format refused pattern (pre ++ i :: post) w =
  (w, Raise (refusal_error (path i) r)).
Proof.
  induction pre as [|j pre IH]; intros H Hf Hr.
  - simpl. unfold bind, lift, open_x. rewrite Hf, Hr. destruct r; reflexivity.
  - destruct (H j (or_introl eq_refl)) as (Hfj & Hrj & Hej).
    simpl. unfold bind, lift, open_x. rewrite Hfj, Hrj, Hej.
    apply IH; auto. intros k Hk. apply H. right; assumption.
Qed.

Lemma seq_split n i :
  (i < n)%nat -> seq 0 n = seq 0 i ++ i :: seq (S i) (n - S i).
Proof.
  intros H. replace n with (i + S (n - S i))%nat at 1 by lia.
  rewrite seq_app. reflexivity.
Qed.

(** C8, as the code has it.  Without a brace in its argument,
    [open_output_file] opens just that path for exclusive creation: it
    fails, and changes nothing, if the path exists or the operating system
    refuses to create it.  With a brace, and substitutions [path 0] to
    [path 999] that all succeed, it goes through the indexes in order,
    passing those whose path exists: it creates and returns the first path
    that does not exist; it raises at once what the operating system
    answers when it refuses to open a path; and it raises
    [FileExistsError] for the pattern when all thousand exist. *)
Theorem open_output_file_spec pattern path w :
  (contains_char "{" pattern = false ->
   open_output_file str_format refused pattern w =
   match refused pattern with
   | Some r => (w, Raise (refusal_error pattern r))
   | None =>
       if exists_path pattern w
       then (w, Raise (FileExistsError pattern))
       else (set_fs (cons pattern) w, Ok (mkFile pattern))
   end) /\
  (contains_char "{" pattern = true ->
   (forall i, (i < 1000)%nat -> str_format pattern i = Ok (path i)) ->
   (forall i, (i < 1000)%nat ->
      (forall j, (j < i)%nat ->
         refused (path j) = None /\ exists_path (path j) w = true) ->
      (refused (path i) = None -> exists_path (path i) w = false ->
       open_output_file str_format refused pattern w =
       (set_fs (cons (path i)) w, Ok (mkFile (path i)))) /\
      (forall r, refused (path i) = Some r ->
       open_output_file str_format refused pattern w =
       (w, Raise (refusal_error (path i) r)))) /\
   ((forall i, (i < 1000)%nat ->
       refused (path i) = None /\ exists_path (path i) w = true) ->
    open_output_file str_format refused pattern w = (w, Raise (FileExistsError pattern)))).
Proof.
  unfold open_output_file. split.
  - intros ->. reflexivity.
  - intros -> Hfmt. cbn [negb]. split.
    + intros i Hi Htaken.
      assert (Hpre : forall j, In j (seq 0 i) ->
                str_format pattern j = Ok (path j) /\
                refused (path j) = None /\ exists_path (path j) w = true).
      { intros j Hj. apply in_seq in Hj.
        split; [apply Hfmt; lia | apply Htaken; lia]. }
      rewrite (seq_split 1000 i Hi). split.
      * intros Hr Hfree.
        apply try_slots_first_free with (path := path); auto.
      * intros r Hr.
        apply try_slots_refused with (path := path); auto.
    + intros Htaken. apply try_slots_taken with (path := path).
      intros i Hi. apply in_seq in Hi.
      split; [apply Hfmt; lia | apply Htaken; lia].
Qed.

Lemma exists_path_cons path w : exists_path path (set_fs (cons path) w) = true.
Proof. unfold exists_path; simpl. rewrite String.eqb_refl. reflexivity. Qed.

(** What a call of the allocator does to the state, by its outcome. *)
Lemma open_x_outcome path w w' r :
  open_x refused path w = (w', r) ->
  match r with
  | Ok dest =>
      name dest = path /\ refused path = None /\
      exists_path path w = false /\ w' = set_fs (cons path) w
  | Raise _ => w' = w
  end.
Proof.
  unfold open_x. destruct (refused path) as [why|].
  - intros [= <- <-]. reflexivity.
  - destruct (exists_path path w) eqn:E; intros [= <- <-].
    + reflexivity.
    + repeat split.
Qed.

Lemma try_slots_outcome pattern : forall slots w w' r,
  try_slots str_format refused pattern slots w = (w', r) ->
  match r with
  | Ok dest => exists_path (name dest) w = false /\ w' = set_fs (cons (name dest)) w
  | Raise _ => w' = w
  end.
Proof.
  induction slots as [|i rest IH]; intros w w' r.
  - intros [= <- <-]. reflexivity.
  - simpl. unfold bind, lift.
    destruct (str_format pattern i) as [path|e].
    + destruct (open_x refused path w) as [w1 [dest|e]] eqn:Hopen.
      * apply open_x_outcome in Hopen as (Hn & _ & Hfree & ->).
        intros [= <- <-]. rewrite Hn. split; [exact Hfree | reflexivity].
      * apply open_x_outcome in Hopen. subst w1.
        destruct e; try (intros [= <- <-]; reflexivity). apply IH.
    + destruct e; try (intros [= <- <-]; reflexivity). apply IH.
Qed.

Lemma open_output_file_outcome pattern w w' r :
  open_output_file str_format refused pattern w = (w', r) ->
  match r with
  | Ok dest => exists_path (name dest) w = false /\ w' = set_fs (cons (name dest)) w
  | Raise _ => w' = w
  end.
Proof.
  unfold open_output_file. destruct (negb (contains_char "{" pattern)).
  - intros H. apply open_x_outcome in H. destruct r as [dest|e]; [|exact H].
    destruct H as (Hn & _ & Hfree & ->). rewrite Hn. split; [exact Hfree | reflexivity].
  - apply try_slots_outcome.
Qed.

(** The file [open_output_file] returns exists. *)
Lemma open_output_file_creates pattern w w' dest :
  open_output_file str_format refused pattern w = (w', Ok dest) ->
  exists_path (name dest) w' = true.
Proof.
  intros H. apply open_output_file_outcome in H as [_ ->]. apply exists_path_cons.
Qed.

End Allocator.

(** ** Growth of the trace *)

Section TraceGrowth.

Variable Q : event -> Prop.

Lemma extends_refl w : extends Q w w.
Proof. exists []. split; [symmetry; apply app_nil_r | constructor]. Qed.

Lemma extends_trans a b c : extends Q a b -> extends Q b c -> extends Q a c.
Proof.
  intros (e1 & H1 & F1) (e2 & H2 & F2). exists (e1 ++ e2). split.
  - rewrite H2, H1, app_assoc. reflexivity.
  - apply Forall_app; split; assumption.
Qed.

Lemma extends_same_trace w w' : trace w' = trace w -> extends Q w w'.
Proof. intros H. exists []. rewrite H, app_nil_r. split; constructor. Qed.

Lemma extends_event ev : Q ev -> admits (extends Q) ev.
Proof. intros H w. exists [ev]. split; [reflexivity | repeat constructor; assumption]. Qed.

Lemma extends_events evs w : Forall Q evs -> extends Q w (add_events evs w).
Proof. intros H. exists evs. split; [reflexivity | assumption]. Qed.

Lemma stable_open_x refused path : stable (extends Q) (open_x refused path).
Proof.
  intros w. unfold open_x.
  destruct (refused path); [|destruct (exists_path path w)];
    apply extends_same_trace; reflexivity.
Qed.

Lemma stable_os_makedirs path : stable (extends Q) (os_makedirs path).
Proof.
  intros w. unfold os_makedirs. destruct (exists_path path w);
    apply extends_same_trace; reflexivity.
Qed.

Lemma stable_os_unlink path : stable (extends Q) (os_unlink path).
Proof.
  intros w. unfold os_unlink. destruct (exists_path path w);
    apply extends_same_trace; reflexivity.
Qed.

Lemma stable_shutil_rmtree path : stable (extends Q) (shutil_rmtree path).
Proof.
  intros w. unfold shutil_rmtree. destruct (exists_path path w);
    apply extends_same_trace; reflexivity.
Qed.

Lemma stable_get_cachedir cache_home configured token :
  stable (extends Q) (get_cachedir cache_home configured token).
Proof.
  unfold get_cachedir.
  apply stable_bind; [apply extends_trans | | intros fallback].
  - intros w. unfold save_cache_path.
    destruct (exists_path (path_join cache_home "xrecord") w);
      [apply extends_refl|].
    revert w. apply stable_bind;
      [apply extends_trans | apply stable_os_makedirs | intros _; apply stable_ret].
    apply extends_refl.
  - apply stable_bind;
      [apply extends_trans | apply stable_os_makedirs | intros _; apply stable_ret].
    apply extends_refl.
Qed.

Lemma stable_print_progress duration sample :
  stable (extends Q) (print_progress duration sample).
Proof.
  intros w. apply extends_same_trace. unfold print_progress.
  destruct sample as [t|], duration as [d|]; try reflexivity;
    destruct (d =? 0); try reflexivity;
    unfold bind, modify; simpl;
    match goal with |- context [if ?b then _ else _] => destruct b end;
    reflexivity.
Qed.

Lemma stable_try_slots str_format refused pattern slots :
  stable (extends Q) (try_slots str_format refused pattern slots).
Proof.
  induction slots as [|i rest IH]; intros w; simpl.
  - apply extends_refl.
  - unfold bind, lift.
    destruct (str_format pattern i) as [path|e].
    + pose proof (stable_open_x refused path w) as Hopen.
      destruct (open_x refused path w) as [w1 [dest|e]]; cbn [fst] in *;
        [exact Hopen|].
      destruct e; try exact Hopen.
      eapply extends_trans; [exact Hopen | apply IH].
    + destruct e; try apply extends_refl. apply IH.
Qed.

Lemma stable_open_output_file str_format refused pattern :
  stable (extends Q) (open_output_file str_format refused pattern).
Proof.
  unfold open_output_file. destruct (negb (contains_char "{" pattern)).
  - apply stable_open_x.
  - apply stable_try_slots.
Qed.

Lemma Forall_capture_trace lines :
  (forall raw, Q (EvReadline raw)) -> Q EvPoll ->
  Forall Q (capture_trace lines).
Proof.
  intros Hl Hp. induction lines as [|[text|bytes] rest IH]; simpl; auto.
Qed.

Variable spawn : list string -> launch.

Lemma stable_record cachefile framerate display geometry :
  Q (EvPopen (record_call cachefile framerate display geometry) Inherit PIPE) ->
  (forall raw, Q (EvReadline raw)) -> Q EvPoll ->
  stable (extends Q) (record spawn cachefile framerate display geometry).
Proof.
  intros Hpopen Hline Hpoll w.
  destruct (spawn (record_call cachefile framerate display geometry)) as [c|e] eqn:E.
  - rewrite (record_launched _ _ _ _ _ _ _ E). cbn [fst].
    eexists. split; [reflexivity|].
    constructor; [assumption | apply Forall_capture_trace; assumption].
  - rewrite (record_launch_fails _ _ _ _ _ _ _ E). cbn [fst].
    apply extends_event; assumption.
Qed.

Lemma stable_encode source_file output_file config_section cb :
  (forall call, Q (EvPopen call (ToFile (name output_file)) PIPE)) ->
  (forall raw, Q (EvReadline raw)) -> Q EvPoll ->
  (forall sample, Q (EvCall sample)) ->
  (forall sample, stable (extends Q) (cb sample)) ->
  stable (extends Q)
         (encode spawn source_file output_file config_section (Some cb)).
Proof.
  intros Hpopen Hline Hpoll Hcall Hcb w. unfold encode, lift. unfold bind at 1.
  destruct (encode_call source_file config_section) as [call|e0];
    [|apply extends_refl].
  unfold bind.
  destruct (spawn call) as [c|e] eqn:E.
  - rewrite (run_launched _ _ _ _ _ _ _ E).
    pose proof (stable_ffmpeg_progress (extends Q) extends_refl extends_trans cb
                  (fresh call PIPE c)
                  (fun raw => extends_event _ (Hline raw))
                  (extends_event _ Hpoll)
                  (fun sample => extends_event _ (Hcall sample)) Hcb
                  (supervised call (ToFile (name output_file)) PIPE c w)) as Hp.
    destruct (ffmpeg_progress cb _ _) as [w2 r]. cbn [fst] in Hp.
    assert (Hw : extends Q w (restored w2)).
    { eapply extends_trans; [|eapply extends_trans; [exact Hp|]].
      - exists [EvPopen call (ToFile (name output_file)) PIPE].
        split; [reflexivity | repeat constructor; apply Hpopen].
      - apply extends_same_trace; reflexivity. }
    destruct r as [[proc' r']|e]; [|exact Hw].
    destruct (negb _); exact Hw.
  - rewrite (run_launch_fails _ _ _ _ _ _ _ E). cbn [fst].
    apply extends_event; apply Hpopen.
Qed.

End TraceGrowth.

(** ** The driver *)

Lemma bind_ok A B (m : M A) (k : A -> M B) w w' a :
  m w = (w', Ok a) -> bind m k w = k a w'.
Proof. intros H. unfold bind. rewrite H. reflexivity. Qed.

Lemma bind_raise A B (m : M A) (k : A -> M B) w w' e :
  m w = (w', Raise e) -> bind m k w = (w', Raise e).
Proof. intros H. unfold bind. rewrite H. reflexivity. Qed.

(** [get_cachedir] makes the XDG cache directory of xrecord if it is not
    there, then the cache directory of the run, which must be new. *)
Lemma get_cachedir_spec inv w :
  get_cachedir (xdg_cache_home inv) (general_cachedir inv) (token inv) w =
  if exists_path (cachedir_of inv) (ensured (xdg_cache_path inv) w)
  then (ensured (xdg_cache_path inv) w, Raise (FileExistsError (cachedir_of inv)))
  else (set_fs (cons (cachedir_of inv)) (ensured (xdg_cache_path inv) w),
        Ok (cachedir_of inv)).
Proof.
  unfold get_cachedir, save_cache_path, ensured, xdg_cache_path.
  unfold bind at 1.
  destruct (exists_path (path_join (xdg_cache_home inv) "xrecord") w) eqn:E.
  - unfold bind, os_makedirs, ret.
    change (path_join
              match general_cachedir inv with
              | Some dir => dir
              | None => path_join (xdg_cache_home inv) "xrecord"
              end (token inv)) with (cachedir_of inv).
    destruct (exists_path (cachedir_of inv) w); reflexivity.
  - unfold bind at 1. unfold os_makedirs at 1. rewrite E. cbn [ret].
    unfold bind, os_makedirs, ret.
    change (path_join
              match general_cachedir inv with
              | Some dir => dir
              | None => path_join (xdg_cache_home inv) "xrecord"
              end (token inv)) with (cachedir_of inv).
    destruct (exists_path (cachedir_of inv) _); reflexivity.
Qed.

Lemma get_cachedir_ok inv w w1 cachedir :
  get_cachedir (xdg_cache_home inv) (general_cachedir inv) (token inv) w =
    (w1, Ok cachedir) ->
  cachedir = cachedir_of inv /\
  exists_path cachedir (ensured (xdg_cache_path inv) w) = false /\
  w1 = set_fs (cons cachedir) (ensured (xdg_cache_path inv) w).
Proof.
  rewrite get_cachedir_spec.
  destruct (exists_path (cachedir_of inv) _) eqn:E; [discriminate|].
  intros [= <- <-]. auto.
Qed.

Section Driver.

Variable spawn : list string -> launch.
Variable str_format : string -> nat -> result string.
Variable refused : string -> option refusal.

(** C1, as the code has it.  When the run ends without an error, the
    cache directory made at its start and everything under it no longer
    exist. *)
Theorem main_success_removes_cachedir inv w w' :
  main spawn str_format refused inv w = (w', Ok tt) ->
  gone (path_join (cache_base inv) (token inv)) w'.
Proof.
  unfold main, bind.
  destruct (get_cachedir _ _ _ w) as [w1 [cachedir|e]] eqn:Hmk; [|discriminate].
  apply get_cachedir_ok in Hmk as (-> & _ & _).
  destruct (open_output_file _ _ _ w1) as [w2 [dest|e]]; [|discriminate].
  destruct (with_dest _ _ _ _ w2) as [w3 [[]|e]]; [|discriminate].
  unfold shutil_rmtree. destruct (exists_path _ w3); [|discriminate].
  intros [= <-] path Hin. simpl in Hin.
  apply filter_In in Hin as [_ Hin]. apply negb_true_iff in Hin. exact Hin.
Qed.

Lemma exists_path_app path l w :
  exists_path path w = true -> exists_path path (set_fs (app l) w) = true.
Proof.
  unfold exists_path; simpl. intros H.
  rewrite existsb_app, H. apply orb_true_r.
Qed.

Lemma exists_path_unlinked path w :
  exists_path path (set_fs (filter (fun p => negb (String.eqb path p))) w) = false.
Proof.
  unfold exists_path; simpl.
  induction (fs w) as [|p rest IH]; [reflexivity|].
  simpl. destruct (String.eqb path p) eqn:E; simpl; [assumption|].
  rewrite E. assumption.
Qed.

(** [record] removes no file. *)
Lemma record_keeps_files cachefile framerate display geometry path w :
  exists_path path w = true ->
  exists_path path (fst (record spawn cachefile framerate display geometry w)) = true.
Proof.
  intros H.
  destruct (spawn (record_call cachefile framerate display geometry)) as [c|e] eqn:E.
  - rewrite (record_launched _ _ _ _ _ _ _ E). cbn [fst].
    apply (exists_path_app path (creates c) w H).
  - rewrite (record_launch_fails _ _ _ _ _ _ _ E). exact H.
Qed.

(** C2, as the code has it.  Whatever [record] raises, the driver unlinks
    the output file it had allocated and raises the same exception: after
    the run the file does not exist. *)
Theorem capture_failure_removes_output inv w w1 cachedir w2 dest w3 e :
  get_cachedir (xdg_cache_home inv) (general_cachedir inv) (token inv) w =
    (w1, Ok cachedir) ->
  open_output_file str_format refused (output_pattern inv) w1 = (w2, Ok dest) ->
  record spawn (path_join cachedir INITIAL_FILE_NAME)
         (framerate inv) (display inv) (geometry inv) w2 = (w3, Raise e) ->
  snd (main spawn str_format refused inv w) = Raise e /\
  exists_path (name dest) (fst (main spawn str_format refused inv w)) = false.
Proof.
  intros Hmk Hopen Hrec.
  pose proof (open_output_file_creates _ _ _ _ _ _ Hopen) as Hdest.
  pose proof (record_keeps_files
                (path_join cachedir INITIAL_FILE_NAME)
                (framerate inv) (display inv) (geometry inv) _ _ Hdest) as Hkept.
  rewrite Hrec in Hkept. cbn [fst] in Hkept.
  assert (Hmain : main spawn str_format refused inv w =
                  (set_fs (filter (fun p => negb (String.eqb (name dest) p))) w3,
                   Raise e)).
  { unfold main.
    rewrite (bind_ok _ _ _ _ _ _ _ Hmk), (bind_ok _ _ _ _ _ _ _ Hopen).
    apply bind_raise. unfold with_dest. apply bind_raise.
    unfold try_except_reraise. rewrite Hrec.
    unfold os_unlink. rewrite Hkept. reflexivity. }
  rewrite Hmain. cbn [fst snd].
  split; [reflexivity | apply exists_path_unlinked].
Qed.

(** The events of the block under [with]: those of [record], and, when
    progress output is on, those of [encode] with its callback. *)
Lemma stable_with_dest Q inv cachedir dest :
  Q (EvPopen (record_call (path_join cachedir INITIAL_FILE_NAME)
                          (framerate inv) (display inv) (geometry inv))
             Inherit PIPE) ->
  (forall raw, Q (EvReadline raw)) -> Q EvPoll ->
  (progress inv = true ->
   (forall call, Q (EvPopen call (ToFile (name dest)) PIPE)) /\
   (forall sample, Q (EvCall sample))) ->
  stable (extends Q) (with_dest spawn inv cachedir dest).
Proof.
  intros Hpopen Hline Hpoll Hprogress. unfold with_dest.
  apply stable_bind; [apply extends_trans | | intros duration].
  { apply stable_try_except_reraise; [apply extends_trans | |].
    - apply stable_record; auto.
    - apply stable_os_unlink. }
  apply stable_bind; [apply extends_trans | | intros section].
  { unfold config_getitem. destruct (encode_section inv);
      [apply stable_ret | apply stable_raise]; apply extends_refl. }
  destruct (progress inv).
  - destruct (Hprogress eq_refl) as [Hencode Hcall].
    exact (stable_encode Q spawn _ dest section (print_progress duration)
             Hencode Hline Hpoll Hcall
             (stable_print_progress Q duration)).
  - intros w. apply extends_refl.
Qed.

Lemma stable_main Q inv :
  Q (EvPopen (record_call
                (path_join (path_join (cache_base inv) (token inv)) INITIAL_FILE_NAME)
                (framerate inv) (display inv) (geometry inv))
             Inherit PIPE) ->
  (forall raw, Q (EvReadline raw)) -> Q EvPoll ->
  (progress inv = true ->
   (forall call so, Q (EvPopen call so PIPE)) /\
   (forall sample, Q (EvCall sample))) ->
  stable (extends Q) (main spawn str_format refused inv).
Proof.
  intros Hpopen Hline Hpoll Hprogress w. unfold main. unfold bind at 1.
  pose proof (stable_get_cachedir Q (xdg_cache_home inv) (general_cachedir inv)
                (token inv) w) as Hmk.
  destruct (get_cachedir _ _ _ w) as [w1 [cachedir|e]] eqn:Emk; cbn [fst] in Hmk;
    [|exact Hmk].
  apply get_cachedir_ok in Emk as (-> & _ & _).
  eapply extends_trans; [exact Hmk|]. revert w1 Hmk. intros w1 _. revert w1.
  apply stable_bind; [apply extends_trans | apply stable_open_output_file | intros dest].
  apply stable_bind; [apply extends_trans | | intros _; apply stable_shutil_rmtree].
  apply stable_with_dest; auto.
  intros Hp. destruct (Hprogress Hp) as [H1 H2]. split; auto.
Qed.

(** With progress output off, the block under [with] always ends with an
    exception. *)
Lemma with_dest_no_progress inv cachedir dest w :
  progress inv = false ->
  exists e, snd (with_dest spawn inv cachedir dest w) = Raise e.
Proof.
  intros Hp. unfold with_dest, bind, try_except_reraise. rewrite Hp.
  destruct (record _ _ _ _ _ w) as [w1 [duration|e]].
  - unfold config_getitem.
    destruct (encode_section inv); cbn; eauto.
  - destruct (os_unlink (name dest) w1) as [w2 [[]|e']]; cbn; eauto.
Qed.

(** C10.  In no run does the driver reach the branch of [encode] without a
    callback: no child is launched with its diagnostic stream discarded and
    none is waited for with the plain wait.  With progress output off the
    driver does not reach [encode] at all, on either branch:
    [functools.partial(None, duration)] raises [TypeError] before the call,
    so the run always ends with an exception, launches no child but the
    capture and calls no callback; after a capture that succeeded the
    exception is that [TypeError], raised in the state the capture left. *)
Theorem driver_never_encodes_without_callback inv w :
  extends piped w (fst (main spawn str_format refused inv w)) /\
  (progress inv = false ->
   (exists e, snd (main spawn str_format refused inv w) = Raise e) /\
   extends (capture_only
              (record_call
                 (path_join (path_join (cache_base inv) (token inv)) INITIAL_FILE_NAME)
                 (framerate inv) (display inv) (geometry inv)))
           w (fst (main spawn str_format refused inv w)) /\
   forall w1 cachedir w2 dest w3 duration section,
     get_cachedir (xdg_cache_home inv) (general_cachedir inv) (token inv) w =
       (w1, Ok cachedir) ->
     open_output_file str_format refused (output_pattern inv) w1 = (w2, Ok dest) ->
     record spawn (path_join cachedir INITIAL_FILE_NAME)
            (framerate inv) (display inv) (geometry inv) w2 = (w3, Ok duration) ->
     encode_section inv = Some section ->
     main spawn str_format refused inv w =
     (w3, Raise (TypeError "the first argument must be callable"))).
Proof.
  split; [|intros Hp; repeat split].
  - apply stable_main; cbn; auto.
  - unfold main, bind.
    destruct (get_cachedir _ _ _ w) as [w1 [cachedir|e]]; [|cbn; eauto].
    destruct (open_output_file _ _ _ w1) as [w2 [dest|e]]; [|cbn; eauto].
    destruct (with_dest_no_progress inv cachedir dest w2 Hp) as [e He].
    destruct (with_dest _ _ _ _ w2) as [w3 [[]|e']]; [discriminate|cbn; eauto].
  - apply stable_main; cbn; auto.
    rewrite Hp. discriminate.
  - intros w1 cachedir w2 dest w3 duration section Hmk Hopen Hrec Hsec.
    unfold main.
    rewrite (bind_ok _ _ _ _ _ _ _ Hmk), (bind_ok _ _ _ _ _ _ _ Hopen).
    apply bind_raise. unfold with_dest. rewrite Hp.
    assert (Htry : try_except_reraise
              (record spawn (path_join cachedir INITIAL_FILE_NAME)
                 (framerate inv) (display inv) (geometry inv))
              (os_unlink (name dest)) w2 = (w3, Ok duration)).
    { unfold try_except_reraise. rewrite Hrec. reflexivity. }
    rewrite (bind_ok _ _ _ _ _ _ _ Htry). rewrite Hsec. reflexivity.
Qed.

End Driver.

(** * The properties on concrete runs *)

(** ** The parser on a separator that is not a dot *)

(** C4.  The pattern of the code has an unescaped dot before the
    centiseconds, so the parser takes any character but the newline there: a
    line without the time field [time=HH:MM:SS.CC] can yield a duration, and
    a line with one can yield the duration of an earlier, malformed field.
    A parser for the field with the dot returns nothing on the first line
    and two seconds on the second. *)
Theorem extract_ffmpeg_time_any_separator :
  extract_ffmpeg_time "time=01:02:03x45" = Ok (Some (mk_timedelta 1 2 3 450000)) /\
  spec_timestamp "time=01:02:03x45" = None /\
  extract_ffmpeg_time "time=00:00:01x00 time=00:00:02.00" =
    Ok (Some (mk_timedelta 0 0 1 0)) /\
  spec_timestamp "time=00:00:01x00 time=00:00:02.00" = Some (mk_timedelta 0 0 2 0).
Proof. repeat split; reflexivity. Qed.

(** ** The supervised run and the stages *)

Lemma run_with_signal_forwarding_restores_handlers_witness :
  scripted capture_2s transcode_ok ["ffmpeg"] = Launched transcode_ok /\
  sigint machine0 = default_int_handler /\
  snd (run_with_signal_forwarding (scripted capture_2s transcode_ok) ["ffmpeg"]
         Inherit PIPE (Some failing_poll) machine0) = Raise (OSError "read failed") /\
  sigint (fst (run_with_signal_forwarding (scripted capture_2s transcode_ok) ["ffmpeg"]
                 Inherit PIPE (Some failing_poll) machine0)) = SIG_DFL /\
  sigterm (fst (run_with_signal_forwarding (scripted capture_2s transcode_ok) ["ffmpeg"]
                  Inherit PIPE (Some failing_poll) machine0)) = SIG_DFL.
Proof.
  split; [reflexivity|]. split; [reflexivity|]. split; [reflexivity|].
  apply (run_with_signal_forwarding_restores_handlers
           (scripted capture_2s transcode_ok) ["ffmpeg"] Inherit PIPE
           (Some failing_poll) transcode_ok machine0).
  reflexivity.
Defined.






(** ** The allocator *)

Lemma open_output_file_spec_witness :
  contains_char "{" "/home/u/out-{}.ogv" = true /\
  exists_path "/home/u/out-3.ogv" taken = false /\
  open_output_file format_braces writable "/home/u/out-{}.ogv" taken =
    (set_fs (cons "/home/u/out-3.ogv") taken, Ok (mkFile "/home/u/out-3.ogv")) /\
  contains_char "{" "/home/u/out-0.ogv" = false /\
  open_output_file format_braces writable "/home/u/out-0.ogv" taken =
    (taken, Raise (FileExistsError "/home/u/out-0.ogv")).
Proof.
  split; [reflexivity|]. split; [reflexivity|]. split.
  - apply (proj1 (proj1 (proj2 (open_output_file_spec format_braces writable
                                  "/home/u/out-{}.ogv"
                                  (format_slot "/home/u/out-{}.ogv") taken)
                           eq_refl (fun i _ => eq_refl)) 3%nat
                    ltac:(repeat constructor)
                    ltac:(intros [|[|[|j]]] Hj; try (split; reflexivity);
                          exfalso; apply (Nat.nlt_0_r j);
                          do 3 apply Nat.succ_lt_mono in Hj; exact Hj))
             eq_refl eq_refl).
  - split; [reflexivity|].
    apply (proj1 (open_output_file_spec format_braces writable "/home/u/out-0.ogv"
                    (format_slot "/home/u/out-0.ogv") taken) eq_refl).
Defined.

(** ** The driver *)

Lemma main_success_removes_cachedir_witness :
  main (scripted capture_2s transcode_ok) format_braces writable with_progress machine0 =
    (fst (main (scripted capture_2s transcode_ok) format_braces writable with_progress
               machine0),
     Ok tt) /\
  gone "/cache/tok"
       (fst (main (scripted capture_2s transcode_ok) format_braces writable with_progress
                  machine0)).
Proof.
  split; [vm_compute; reflexivity|].
  apply (main_success_removes_cachedir (scripted capture_2s transcode_ok) format_braces
           writable with_progress machine0).
  vm_compute; reflexivity.
Defined.

Lemma capture_failure_removes_output_witness :
  record (scripted capture_crash transcode_ok) recording 25 ":0" (0, 0, 640, 480)
         machine2 =
    (mkWorld (fs machine2) SIG_DFL SIG_DFL []
             [EvPopen (record_call recording 25 ":0" (0, 0, 640, 480)) Inherit PIPE;
              EvReadline (Utf8 "cannot open display"); EvPoll],
     Raise (CalledProcessError (Some 1) (record_call recording 25 ":0" (0, 0, 640, 480)))) /\
  snd (main (scripted capture_crash transcode_ok) format_braces writable with_progress
            machine0) =
    Raise (CalledProcessError (Some 1) (record_call recording 25 ":0" (0, 0, 640, 480))) /\
  exists_path "/home/u/out-1.ogv"
    (fst (main (scripted capture_crash transcode_ok) format_braces writable with_progress
               machine0)) =
    false.
Proof.
  split; [vm_compute; reflexivity|].
  apply (capture_failure_removes_output (scripted capture_crash transcode_ok)
           format_braces writable with_progress machine0 machine1 "/cache/tok" machine2
           (mkFile "/home/u/out-1.ogv")
           (mkWorld (fs machine2) SIG_DFL SIG_DFL []
                    [EvPopen (record_call recording 25 ":0" (0, 0, 640, 480)) Inherit PIPE;
                     EvReadline (Utf8 "cannot open display"); EvPoll])
           (CalledProcessError (Some 1) (record_call recording 25 ":0" (0, 0, 640, 480))));
    vm_compute; reflexivity.
Defined.

Lemma driver_never_encodes_without_callback_witness :
  progress without_progress = false /\
  encode_section without_progress = Some encode_items /\
  main (scripted capture_2s transcode_ok) format_braces writable without_progress
       machine0 =
    (machine3, Raise (TypeError "the first argument must be callable")).
Proof.
  split; [reflexivity|]. split; [reflexivity|].
  apply (proj2 (proj2 (proj2 (driver_never_encodes_without_callback
           (scripted capture_2s transcode_ok) format_braces writable without_progress
           machine0) eq_refl))
           machine1 "/cache/tok" machine2 (mkFile "/home/u/out-1.ogv") machine3
           (Some 2000000) encode_items);
    vm_compute; reflexivity.
Defined.

(** ** Where the specification says more than the code does *)

(** C1.  A run in which the transcode fails, and one in which the capture
    fails, both leave the cache directory behind. *)
Lemma cachedir_left_after_failure :
  ~ gone "/cache/tok"
      (fst (main (scripted capture_2s transcode_fails) format_braces writable
                 with_progress machine0)) /\
  ~ gone "/cache/tok"
      (fst (main (scripted capture_crash transcode_ok) format_braces writable
                 with_progress machine0)).
Proof.
  split; intros H; specialize (H "/cache/tok");
    assert (Hin : under "/cache/tok" "/cache/tok" = false)
      by (apply H; vm_compute; auto);
    discriminate Hin.
Qed.

(** C2.  A run in which the transcode fails ends with its
    [CalledProcessError] and leaves the output file it allocated. *)
Lemma output_left_after_encode_failure :
  ~ (forall e,
       snd (main (scripted capture_2s transcode_fails) format_braces writable
                 with_progress machine0) = Raise e ->
       exists_path "/home/u/out-1.ogv"
         (fst (main (scripted capture_2s transcode_fails) format_braces writable
                    with_progress machine0)) = false).
Proof.
  intros H.
  specialize (H (CalledProcessError (Some 1) transcode_call)).
  assert (Hleft : exists_path "/home/u/out-1.ogv"
            (fst (main (scripted capture_2s transcode_fails) format_braces writable
                       with_progress machine0)) = true) by (vm_compute; reflexivity).
  rewrite H in Hleft; [discriminate | vm_compute; reflexivity].
Qed.




(** C8.  On a machine without the directory [/nodir], the path for index 0
    of the pattern does not exist, and yet no handle is returned:
    [open_output_file] raises the [FileNotFoundError] of [open].  And an
    argument with a brace that [format] rejects is not opened as it is:
    the [ValueError] of [format] is raised. *)
Lemma open_output_file_refused :
  exists_path "/nodir/out-0.ogv" taken = false /\
  open_output_file format_braces without_nodir "/nodir/out-{}.ogv" taken =
    (taken, Raise (FileNotFoundError "/nodir/out-0.ogv")) /\
  open_output_file format_unbalanced writable "/home/u/out-{.ogv" taken =
    (taken, Raise (ValueError "expected '}' before end of string")).
Proof. repeat split; vm_compute; reflexivity. Qed.


(** C10.  With progress output off and a capture that succeeds, the run
    ends with the [TypeError] of [functools.partial]; [encode] is not
    called: no transcode is launched, piped or not, and nothing is called
    back. *)
Lemma no_encode_without_progress :
  snd (main (scripted capture_2s transcode_ok) format_braces writable without_progress
            machine0) =
    Raise (TypeError "the first argument must be callable") /\
  ~ In (EvPopen transcode_call (ToFile "/home/u/out-1.ogv") PIPE)
       (trace (fst (main (scripted capture_2s transcode_ok) format_braces writable
                         without_progress machine0))) /\
  delivered (trace (fst (main (scripted capture_2s transcode_ok) format_braces writable
                              without_progress machine0))) = [].
Proof.
  split; [vm_compute; reflexivity|]. split; [|vm_compute; reflexivity].
  intros H. vm_compute in H.
  repeat (destruct H as [H|H]; [discriminate H|]). exact H.
Qed.

(** * Further properties of the code *)

(** ** The time stamp parser: bounds and short lines *)

Lemma int2_range a b :
  is_digit a = true -> is_digit b = true -> 0 <= int2 a b <= 99.
Proof.
  intros Ha Hb. apply digit_value_range in Ha, Hb. unfold int2. lia.
Qed.

(** X1.  Every duration [extract_ffmpeg_time] returns is a whole number of
    centiseconds between zero and 99 h 99 min 99.99 s: the fields are two
    digits each and are not checked against 59. *)
Theorem extract_ffmpeg_time_bounds line t :
  extract_ffmpeg_time line = Ok (Some t) ->
  0 <= t <= mk_timedelta 99 99 99 990000 /\ t mod 10000 = 0.
Proof.
  rewrite extract_ffmpeg_time_parsed. intros [= H]. revert H.
  unfold parsed.
  destruct (re_search re_ffmpeg_progress line) as [m|] eqn:Hs; [|discriminate].
  destruct (match_shape _ (re_search_sound _ _ _ Hs))
    as (h1 & h2 & m1 & m2 & s1 & s2 & sep & c1 & c2 & -> & D & _).
  simpl. intros [= <-]. rewrite stamp_time_field by assumption.
  repeat match goal with
         | H : Forall _ (_ :: _) |- _ => inversion H; clear H; subst
         end.
  assert (Hh := int2_range h1 h2 ltac:(assumption) ltac:(assumption)).
  assert (Hm := int2_range m1 m2 ltac:(assumption) ltac:(assumption)).
  assert (Hsec := int2_range s1 s2 ltac:(assumption) ltac:(assumption)).
  assert (Hc := int2_range c1 c2 ltac:(assumption) ltac:(assumption)).
  unfold mk_timedelta. split; [lia|].
  replace ((int2 h1 h2 * 3600 + int2 m1 m2 * 60 + int2 s1 s2) * 1000000 +
           int2 c1 c2 * 10000)
    with (((int2 h1 h2 * 3600 + int2 m1 m2 * 60 + int2 s1 s2) * 100 + int2 c1 c2)
          * 10000) by lia.
  apply Z_mod_mult.
Qed.

Lemma match_here_length re : forall s m,
  match_here re s = Some m -> (List.length re <= String.length s)%nat.
Proof.
  induction re as [|a re IH]; intros s m H; simpl in *; [lia|].
  destruct s as [|c s]; [discriminate|].
  destruct (atom_matches a c); [|discriminate].
  destruct (match_here re s) as [m'|] eqn:Hm; [|discriminate].
  simpl. specialize (IH _ _ Hm). lia.
Qed.

Lemma re_search_length re : forall s m,
  re_search re s = Some m -> (List.length re <= String.length s)%nat.
Proof.
  induction s as [|c s IH]; intros m H; cbn [re_search] in H.
  - destruct (match_here re "") eqn:E; [|discriminate].
    eapply match_here_length; eassumption.
  - destruct (match_here re (String c s)) eqn:E.
    + eapply match_here_length; eassumption.
    + specialize (IH _ H). simpl. lia.
Qed.

(** X2.  A line of fewer than sixteen characters, the empty text that
    [readline] gives at the end of the stream among them, has no time
    stamp. *)
Theorem extract_ffmpeg_time_short_line line :
  (String.length line < 16)%nat -> extract_ffmpeg_time line = Ok None.
Proof.
  intros H. rewrite extract_ffmpeg_time_parsed. unfold parsed.
  destruct (re_search re_ffmpeg_progress line) as [m|] eqn:Hs; [|reflexivity].
  apply re_search_length in Hs. simpl in Hs. lia.
Qed.

Lemma extract_ffmpeg_time_bounds_witness :
  extract_ffmpeg_time "time=99:99:99.99" = Ok (Some 362439990000) /\
  0 <= 362439990000 <= mk_timedelta 99 99 99 990000 /\
  362439990000 mod 10000 = 0.
Proof.
  split; [reflexivity|].
  apply (extract_ffmpeg_time_bounds "time=99:99:99.99" 362439990000).
  reflexivity.
Defined.

Lemma extract_ffmpeg_time_short_line_witness :
  (String.length "time=00:00:01.0" < 16)%nat /\
  extract_ffmpeg_time "time=00:00:01.0" = Ok None.
Proof.
  split; [repeat constructor|].
  apply (extract_ffmpeg_time_short_line "time=00:00:01.0").
  repeat constructor.
Defined.

(** ** The allocator: exclusive creation *)

Section AllocatorOutcome.

Variable str_format : string -> nat -> result string.
Variable refused : string -> option refusal.

(** X3.  [open_output_file] never hands out a path that exists: the file it
    returns did not exist before the call, and creating it is all the call
    does to the state, whatever the pattern and whatever [format] makes of
    it. *)
Theorem open_output_file_exclusive pattern w w' dest :
  open_output_file str_format refused pattern w = (w', Ok dest) ->
  exists_path (name dest) w = false /\ w' = set_fs (cons (name dest)) w.
Proof. intros H. exact (open_output_file_outcome _ _ _ _ _ _ H). Qed.

(** X4.  When [open_output_file] raises, whether because the path exists,
    because the operating system refuses to create it, because all thousand
    slots are taken or because [format] failed, it leaves the state as it
    found it: the failed attempts create nothing. *)
Theorem open_output_file_failure_changes_nothing pattern w w' e :
  open_output_file str_format refused pattern w = (w', Raise e) -> w' = w.
Proof. intros H. exact (open_output_file_outcome _ _ _ _ _ _ H). Qed.

(** X5.  Two allocations in a row never return the same file, even for the
    same pattern. *)
Theorem open_output_file_twice_distinct pattern pattern' w w1 w2 dest1 dest2 :
  open_output_file str_format refused pattern w = (w1, Ok dest1) ->
  open_output_file str_format refused pattern' w1 = (w2, Ok dest2) ->
  name dest1 <> name dest2.
Proof.
  intros H1 H2 Heq.
  apply open_output_file_outcome in H1 as [_ ->].
  apply open_output_file_outcome in H2 as [Hfree _].
  rewrite <- Heq in Hfree.
  unfold exists_path in Hfree; simpl in Hfree.
  rewrite String.eqb_refl in Hfree. discriminate.
Qed.

Lemma try_slots_format_error pattern path w i e post : forall pre,
  (forall j, In j pre ->
     str_format pattern j = Ok (path j) /\
     refused (path j) = None /\ exists_path (path j) w = true) ->
  str_format pattern i = Raise e ->
  match e with FileExistsError _ => False | _ => True end ->
  try_slots str_format refused pattern (pre ++ i :: post) w = (w, Raise e).
Proof.
  induction pre as [|j pre IH]; intros H Hf He.
  - simpl. unfold bind, lift. rewrite Hf. destruct e; solve [reflexivity | contradiction].
  - destruct (H j (or_introl eq_refl)) as (Hfj & Hrj & Hej).
    simpl. unfold bind, lift, open_x. rewrite Hfj, Hrj, Hej.
    apply IH; auto. intros k Hk. apply H. right; assumption.
Qed.

(** X6.  A pattern that [format] rejects: when the substitution of an index
    below 1000 raises anything but [FileExistsError], and the slots before
    it are taken (opening them raises [FileExistsError]),
    [open_output_file] raises that exception at once and tries no further
    index. *)
Theorem open_output_file_format_error pattern path w i e :
  contains_char "{" pattern = true ->
  (i < 1000)%nat ->
  (forall j, (j < i)%nat ->
     str_format pattern j = Ok (path j) /\
     refused (path j) = None /\ exists_path (path j) w = true) ->
  str_format pattern i = Raise e ->
  match e with FileExistsError _ => False | _ => True end ->
  open_output_file str_format refused pattern w = (w, Raise e).
Proof.
  intros Hb Hi Hpre Hf He. unfold open_output_file. rewrite Hb. cbn [negb].
  rewrite (seq_split 1000 i Hi).
  apply try_slots_format_error with (path := path); auto.
  intros j Hj. apply in_seq in Hj. apply Hpre. lia.
Qed.

End AllocatorOutcome.

Lemma open_output_file_exclusive_witness :
  open_output_file format_braces writable "/home/u/out-{}.ogv" taken =
    (set_fs (cons "/home/u/out-3.ogv") taken, Ok (mkFile "/home/u/out-3.ogv")) /\
  exists_path "/home/u/out-3.ogv" taken = false.
Proof.
  split; [vm_compute; reflexivity|].
  apply (proj1 (open_output_file_exclusive format_braces writable "/home/u/out-{}.ogv"
                  taken (set_fs (cons "/home/u/out-3.ogv") taken)
                  (mkFile "/home/u/out-3.ogv") ltac:(vm_compute; reflexivity))).
Defined.

Lemma open_output_file_failure_changes_nothing_witness :
  open_output_file format_braces without_nodir "/nodir/out-{}.ogv" taken =
    (taken, Raise (FileNotFoundError "/nodir/out-0.ogv")) /\
  taken = taken.
Proof.
  split; [vm_compute; reflexivity|].
  apply (open_output_file_failure_changes_nothing format_braces without_nodir
           "/nodir/out-{}.ogv" taken taken (FileNotFoundError "/nodir/out-0.ogv")).
  vm_compute; reflexivity.
Defined.

Lemma open_output_file_twice_distinct_witness :
  open_output_file format_braces writable "/home/u/out-{}.ogv" taken =
    (set_fs (cons "/home/u/out-3.ogv") taken, Ok (mkFile "/home/u/out-3.ogv")) /\
  open_output_file format_braces writable "/home/u/out-{}.ogv"
                   (set_fs (cons "/home/u/out-3.ogv") taken) =
    (set_fs (cons "/home/u/out-4.ogv") (set_fs (cons "/home/u/out-3.ogv") taken),
     Ok (mkFile "/home/u/out-4.ogv")) /\
  "/home/u/out-3.ogv" <> "/home/u/out-4.ogv".
Proof.
  split; [vm_compute; reflexivity|]. split; [vm_compute; reflexivity|].
  apply (open_output_file_twice_distinct format_braces writable
           "/home/u/out-{}.ogv" "/home/u/out-{}.ogv" taken
           (set_fs (cons "/home/u/out-3.ogv") taken)
           (set_fs (cons "/home/u/out-4.ogv") (set_fs (cons "/home/u/out-3.ogv") taken))
           (mkFile "/home/u/out-3.ogv") (mkFile "/home/u/out-4.ogv"));
    vm_compute; reflexivity.
Defined.

Lemma open_output_file_format_error_witness :
  contains_char "{" "/home/u/out-{.ogv" = true /\
  open_output_file format_unbalanced writable "/home/u/out-{.ogv" taken =
    (taken, Raise (ValueError "expected '}' before end of string")).
Proof.
  split; [reflexivity|].
  apply (open_output_file_format_error format_unbalanced writable "/home/u/out-{.ogv"
           (fun _ => EmptyString) taken 0%nat
           (ValueError "expected '}' before end of string")).
  - reflexivity.
  - repeat constructor.
  - intros j Hj. exfalso. exact (Nat.nlt_0_r j Hj).
  - reflexivity.
  - exact I.
Defined.

(** ** The options of the transcode *)

Lemma encode_options_words : forall config_section options,
  encode_options config_section = Ok options ->
  forall x,
    In x options <->
    exists key value,
      In (key, Ok value) config_section /\ prefix "-" key = true /\
      (x = key \/ (x = value /\ value <> EmptyString)).
Proof.
  induction config_section as [|[k v] rest IH]; intros options.
  - intros [= <-] x. split; [contradiction | intros (? & ? & [] & _)].
  - cbn [encode_options]. destruct (prefix "-" k) eqn:Hk; cbn [negb].
    + destruct v as [value|e0]; cbn [and_then]; [|discriminate].
      destruct (encode_options rest) as [more|e1]; cbn [and_then]; [|discriminate].
      specialize (IH more eq_refl).
      intros [= <-] x. split.
      * intros [<- | H].
        { exists k, value. split; [left; reflexivity | auto]. }
        apply in_app_or in H as [H | H].
        { destruct (String.eqb value "") eqn:Hv; [contradiction|].
          destruct H as [<- | []]. exists k, value.
          split; [left; reflexivity|]. split; [assumption|].
          right. split; [reflexivity|]. intros ->. discriminate. }
        apply IH in H as (key & val & Hin & Hp & Hx).
        exists key, val. split; [right; assumption | auto].
      * intros (key & val & [Heq | Hin] & Hp & Hx).
        { injection Heq as <- <-.
          destruct Hx as [Hx | [Hx Hne]]; subst x; [left; reflexivity|].
          right. apply in_or_app. left.
          destruct (String.eqb value "") eqn:Hv; [|left; reflexivity].
          apply String.eqb_eq in Hv. contradiction. }
        right. apply in_or_app. right. apply IH. exists key, val. auto.
    + intros Hopt x. rewrite (IH options Hopt). split.
      * intros (key & val & Hin & Hp & Hx). exists key, val.
        split; [right; assumption | auto].
      * intros (key & val & [Heq | Hin] & Hp & Hx).
        { injection Heq as <- _. congruence. }
        exists key, val. auto.
Qed.

Lemma encode_options_error : forall config_section e,
  encode_options config_section = Raise e ->
  exists before key after,
    config_section = before ++ (key, Raise e) :: after /\
    prefix "-" key = true /\
    forall k e', In (k, Raise e') before -> prefix "-" k = false.
Proof.
  induction config_section as [|[k v] rest IH]; intros e; [discriminate|].
  cbn [encode_options]. destruct (prefix "-" k) eqn:Hk; cbn [negb].
  - destruct v as [value|e0]; cbn [and_then].
    + destruct (encode_options rest) as [more|e1]; cbn [and_then]; [discriminate|].
      intros [= <-].
      destruct (IH e1 eq_refl) as (before & key & after & -> & Hp & Hc).
      exists ((k, Ok value) :: before), key, after.
      split; [reflexivity|]. split; [assumption|].
      intros k' e' [Heq | Hin]; [discriminate Heq | eauto].
    + intros [= <-]. exists [], k, rest.
      split; [reflexivity|]. split; [assumption|]. intros ? ? [].
  - intros H. destruct (IH e H) as (before & key & after & -> & Hp & Hc).
    exists ((k, v) :: before), key, after.
    split; [reflexivity|]. split; [assumption|].
    intros k' e' [Heq | Hin]; [injection Heq as <- _; assumption | eauto].
Qed.

Lemma encode_options_built : forall config_section,
  (forall key e, In (key, Raise e) config_section -> prefix "-" key = false) ->
  exists options, encode_options config_section = Ok options.
Proof.
  induction config_section as [|[k v] rest IH]; intros H; [eexists; reflexivity|].
  destruct IH as [more Hmore].
  { intros key e Hin. apply (H key e). right; assumption. }
  cbn [encode_options]. destruct (prefix "-" k) eqn:Hk; cbn [negb]; [|eauto].
  destruct v as [value|e0].
  - cbn [and_then]. rewrite Hmore. cbn [and_then]. eauto.
  - specialize (H k e0 (or_introl eq_refl)). congruence.
Qed.

(** X7.  What [encode] forwards from the configuration section.  When the
    options are built, a word is on the command line exactly when it is a
    key that starts with a dash, or the non-empty value of such a key; keys
    without the dash, [output] among them, are dropped with their values.
    Building them fails only with the exception of a lookup, the one for
    the first key with a dash whose lookup raises; the lookups for keys
    without the dash do not matter. *)
Theorem encode_options_forwarded config_section :
  (forall options,
     encode_options config_section = Ok options ->
     forall x,
       In x options <->
       exists key value,
         In (key, Ok value) config_section /\ prefix "-" key = true /\
         (x = key \/ (x = value /\ value <> EmptyString))) /\
  (forall e,
     encode_options config_section = Raise e ->
     exists before key after,
       config_section = before ++ (key, Raise e) :: after /\
       prefix "-" key = true /\
       forall k e', In (k, Raise e') before -> prefix "-" k = false) /\
  ((forall key e, In (key, Raise e) config_section -> prefix "-" key = false) ->
   exists options, encode_options config_section = Ok options).
Proof.
  split; [|split].
  - apply encode_options_words.
  - apply encode_options_error.
  - apply encode_options_built.
Qed.

(** X8.  A section without any key that starts with a dash (the case of a
    configuration that only names the output) gives the bare transcode
    command, from the source file to the standard output, whatever the
    lookups of its keys would give. *)
Theorem encode_call_without_flags source_file config_section :
  (forall key value, In (key, value) config_section -> prefix "-" key = false) ->
  encode_call source_file config_section =
  Ok ["ffmpeg"; "-nostdin"; "-i"; source_file; "-"].
Proof.
  intros H. unfold encode_call.
  replace (encode_options config_section) with (@Ok (list string) []); [reflexivity|].
  induction config_section as [|[k v] rest IH]; [reflexivity|].
  simpl. rewrite (H k v (or_introl eq_refl)). simpl.
  apply IH. intros key value Hin. apply (H key value). right; assumption.
Qed.

Lemma encode_options_forwarded_witness :
  encode_options encode_items = Ok ["-c:v"; "libtheora"; "-an"] /\
  (In "libtheora" ["-c:v"; "libtheora"; "-an"] <->
   exists key value,
     In (key, Ok value) encode_items /\ prefix "-" key = true /\
     ("libtheora" = key \/ ("libtheora" = value /\ value <> EmptyString))).
Proof.
  split; [reflexivity|].
  apply (proj1 (encode_options_forwarded encode_items) ["-c:v"; "libtheora"; "-an"]
           eq_refl "libtheora").
Defined.

Lemma encode_call_without_flags_witness :
  encode_call recording
    [("output", Ok "~/out-{}.ogv");
     ("title", Raise (InterpolationSyntaxError "'%' must be followed by '%' or '('"))] =
  Ok ["ffmpeg"; "-nostdin"; "-i"; recording; "-"].
Proof.
  apply (encode_call_without_flags recording
           [("output", Ok "~/out-{}.ogv");
            ("title", Raise (InterpolationSyntaxError
                               "'%' must be followed by '%' or '('"))]).
  intros key value [[= <- <-] | [[= <- <-] | []]]; reflexivity.
Defined.

(** ** The supervised run: the ways out that are not the normal one *)

Lemma stamps_lines_read lines : forall turns,
  stamps (texts (lines_read turns lines)) = stamps (texts (firstn turns lines)).
Proof.
  induction lines as [|[text|bytes] rest IH]; intros [|n]; try reflexivity.
  - cbn [lines_read hd tl texts firstn stamps].
    change (parsed EmptyString) with (@None timedelta). cbv iota.
    clear. induction n as [|n IH]; [reflexivity|].
    cbn [lines_read hd tl texts stamps].
    change (parsed EmptyString) with (@None timedelta). cbv iota. exact IH.
  - cbn [lines_read hd tl texts firstn stamps]. rewrite IH. reflexivity.
Qed.

Lemma garbled_lines_read lines : forall turns,
  garbled (lines_read turns lines) = garbled (firstn turns lines).
Proof.
  induction lines as [|[text|bytes] rest IH]; intros [|n]; try reflexivity.
  - cbn [lines_read hd tl garbled firstn].
    clear. induction n as [|n IH]; [reflexivity|]. exact IH.
  - cbn [lines_read hd tl garbled firstn]. apply IH.
Qed.

Lemma encode_options_raises e key after : forall before,
  prefix "-" key = true ->
  (forall k e', In (k, Raise e') before -> prefix "-" k = false) ->
  encode_options (before ++ (key, Raise e) :: after) = Raise e.
Proof.
  intros before Hkey. induction before as [|[k v] before IH]; intros Hclean.
  - cbn [app encode_options]. rewrite Hkey. reflexivity.
  - cbn [app encode_options].
    assert (Hrest : encode_options (before ++ (key, Raise e) :: after) = Raise e)
      by (apply IH; intros k' e' Hin; apply (Hclean k' e'); right; assumption).
    destruct (prefix "-" k) eqn:Hk; cbn [negb]; [|exact Hrest].
    destruct v as [value|e0].
    + cbn [and_then]. rewrite Hrest. reflexivity.
    + specialize (Hclean k e0 (or_introl eq_refl)). congruence.
Qed.

Section SupervisedEdges.

Variable spawn : list string -> launch.

(** X9.  When the command cannot be launched, [run_with_signal_forwarding]
    raises what [Popen] raised before it has installed a handler: the
    signal dispositions, the files and the terminal are as they were, and
    the poll strategy is not run. *)
Theorem launch_failure_installs_no_handler call so se wait_fun e w :
  spawn call = LaunchFails e ->
  snd (run_with_signal_forwarding spawn call so se wait_fun w) = Raise e /\
  sigint (fst (run_with_signal_forwarding spawn call so se wait_fun w)) = sigint w /\
  sigterm (fst (run_with_signal_forwarding spawn call so se wait_fun w)) = sigterm w /\
  fs (fst (run_with_signal_forwarding spawn call so se wait_fun w)) = fs w /\
  terminal (fst (run_with_signal_forwarding spawn call so se wait_fun w)) = terminal w /\
  trace (fst (run_with_signal_forwarding spawn call so se wait_fun w)) =
    trace w ++ [EvPopen call so se].
Proof.
  intros H. rewrite (run_launch_fails _ _ _ _ _ _ _ H). repeat split.
Qed.

(** X11.  Without a callback [encode] launches the child with its
    diagnostic stream discarded, waits for it once, reads nothing and calls
    nothing back; the outcome is decided by the exit status, and the state
    changes by the files of the child and the reset handlers only. *)
Theorem encode_without_callback source_file output_file config_section call c w :
  encode_call source_file config_section = Ok call ->
  spawn call = Launched c ->
  encode spawn source_file output_file config_section None w =
  (mkWorld (creates c ++ fs w) SIG_DFL SIG_DFL (terminal w)
           (trace w ++ [EvPopen call (ToFile (name output_file)) DEVNULL; EvWait]),
   if exit_status c =? 0 then Ok tt
   else Raise (CalledProcessError (Some (exit_status c)) call)).
Proof. apply encode_waits. Qed.

(** X12.  When the callback raises on the first sample, [encode] raises
    the same exception whatever the child does: the child has been launched,
    but its stream is never read and it is neither polled nor waited for;
    the handlers are reset all the same. *)
Theorem encode_callback_raises_at_once
        source_file output_file config_section ffmpeg_call (cb : callback) c w w1 e :
  encode_call source_file config_section = Ok ffmpeg_call ->
  spawn ffmpeg_call = Launched c ->
  cb (Some timedelta0)
     (add_event (EvCall (Some timedelta0))
        (supervised ffmpeg_call (ToFile (name output_file)) PIPE c w)) = (w1, Raise e) ->
  encode spawn source_file output_file config_section (Some cb) w =
  (restored w1, Raise e).
Proof.
  intros Hcall H Hcb.
  exact (encode_callback_error spawn source_file output_file config_section ffmpeg_call
           cb c w Hcall H w1 e Hcb).
Qed.

(** X13.  What [record] makes of a child whose exit code it accepts is
    decided by the first lines of the child, one line for each poll: the
    duration is the last time stamp among them, unless one of them is not
    UTF-8, which ends [record] with [UnicodeDecodeError].  What the child
    prints after the poll that finds it gone is never read, and reading at
    the end of the stream adds nothing. *)
Theorem record_reads_first_lines cachefile framerate display geometry c w :
  spawn (record_call cachefile framerate display geometry) = Launched c ->
  capture_accepts (Some (exit_status c)) = true ->
  snd (record spawn cachefile framerate display geometry w) =
  match garbled (firstn (S (lifetime c)) (stderr_lines c)) with
  | Some bytes => Raise (UnicodeDecodeError bytes)
  | None =>
      Ok (last (map Some (stamps (texts (firstn (S (lifetime c)) (stderr_lines c)))))
               None)
  end.
Proof.
  intros H Hacc. rewrite (record_launched _ _ _ _ _ _ _ H). cbn [snd].
  unfold lines_seen, capture_verdict.
  rewrite garbled_lines_read, Hacc, last_stamp_stamps, stamps_lines_read.
  reflexivity.
Qed.

(** X26.  A lookup that raises for a key with a dash ends [encode] with
    that exception before anything is launched: the state is as it was.
    The lookups for keys without the dash are not made, so they cannot
    fail. *)
Theorem encode_lookup_raises
        source_file output_file progress_cb before key after e w :
  prefix "-" key = true ->
  (forall k e', In (k, Raise e') before -> prefix "-" k = false) ->
  encode spawn source_file output_file (before ++ (key, Raise e) :: after)
         progress_cb w = (w, Raise e).
Proof.
  intros Hkey Hclean. apply encode_no_call. unfold encode_call.
  rewrite (encode_options_raises e key after before Hkey Hclean). reflexivity.
Qed.

End SupervisedEdges.

Lemma launch_failure_installs_no_handler_witness :
  sigint (fst (run_with_signal_forwarding (fun _ => LaunchFails (OSError "ffmpeg"))
                 ["ffmpeg"] Inherit PIPE (Some failing_poll) machine0)) =
  default_int_handler.
Proof.
  apply (proj1 (proj2 (launch_failure_installs_no_handler
           (fun _ => LaunchFails (OSError "ffmpeg")) ["ffmpeg"] Inherit PIPE
           (Some failing_poll) (OSError "ffmpeg") machine0 eq_refl))).
Defined.

Lemma run_propagates_witness :
  run_with_signal_forwarding (scripted capture_2s transcode_ok) ["ffmpeg"]
    Inherit PIPE (Some failing_poll) machine0 =
  (restored (supervised ["ffmpeg"] Inherit PIPE transcode_ok machine0),
   Raise (OSError "read failed")).
Proof.
  apply (run_propagates (scripted capture_2s transcode_ok) ["ffmpeg"] Inherit PIPE
           failing_poll transcode_ok machine0
           (supervised ["ffmpeg"] Inherit PIPE transcode_ok machine0)
           (OSError "read failed") eq_refl eq_refl).
Defined.

Lemma encode_without_callback_witness :
  snd (encode (scripted capture_2s transcode_killed) recording
              (mkFile "/home/u/out-1.ogv") encode_items None machine0) =
  Raise (CalledProcessError (Some 255) transcode_call).
Proof.
  exact (f_equal snd (encode_without_callback (scripted capture_2s transcode_killed)
           recording (mkFile "/home/u/out-1.ogv") encode_items transcode_call
           transcode_killed machine0 eq_refl eq_refl)).
Defined.

Lemma encode_callback_raises_at_once_witness :
  snd (encode (scripted capture_2s transcode_ok) recording
              (mkFile "/home/u/out-1.ogv") encode_items (Some broken) machine0) =
  Raise (OSError "broken pipe").
Proof.
  exact (f_equal snd (encode_callback_raises_at_once (scripted capture_2s transcode_ok)
           recording (mkFile "/home/u/out-1.ogv") encode_items transcode_call broken
           transcode_ok machine0 _ (OSError "broken pipe") eq_refl eq_refl eq_refl)).
Defined.

Lemma record_reads_first_lines_witness :
  capture_accepts (Some (exit_status capture_chatty)) = true /\
  snd (record (scripted capture_chatty transcode_ok) recording 25 ":0" (0, 0, 640, 480)
              machine0) = Ok (Some 1000000) /\
  capture_accepts (Some (exit_status capture_latin1)) = true /\
  snd (record (scripted capture_latin1 transcode_ok) recording 25 ":0" (0, 0, 640, 480)
              machine0) = Raise (UnicodeDecodeError latin1_title).
Proof.
  split; [reflexivity|]. split.
  - apply (record_reads_first_lines (scripted capture_chatty transcode_ok)
             recording 25 ":0" (0, 0, 640, 480) capture_chatty machine0 eq_refl eq_refl).
  - split; [reflexivity|].
    apply (record_reads_first_lines (scripted capture_latin1 transcode_ok)
             recording 25 ":0" (0, 0, 640, 480) capture_latin1 machine0 eq_refl eq_refl).
Defined.

Lemma encode_lookup_raises_witness :
  encode (scripted capture_2s transcode_ok) recording (mkFile "/home/u/out-1.ogv")
         encode_items_percent (Some silent) machine0 =
  (machine0, Raise (InterpolationSyntaxError "'%' must be followed by '%' or '('")).
Proof.
  apply (encode_lookup_raises (scripted capture_2s transcode_ok) recording
           (mkFile "/home/u/out-1.ogv") (Some silent)
           [("-c:v", Ok "libtheora")] "-metadata" [("-an", Ok "")]
           (InterpolationSyntaxError "'%' must be followed by '%' or '('") machine0).
  - reflexivity.
  - intros k e' [Heq | []]. discriminate Heq.
Defined.

(** ** What the progress callback prints *)

Lemma print_progress_renders duration sample w :
  duration <> 0 ->
  print_progress (Some duration) sample w =
  (add_outputs (rendering duration sample) w, Ok tt).
Proof.
  intros Hd. apply Z.eqb_neq in Hd.
  unfold print_progress, rendering, bind, modify, add_outputs, add_output.
  destruct sample as [t|]; rewrite Hd; cbn.
  - destruct (t =? duration); cbn; [rewrite <- app_assoc|]; reflexivity.
  - rewrite Z.eqb_refl; cbn. rewrite <- app_assoc. reflexivity.
Qed.

Lemma print_progress_returns duration :
  duration <> 0 -> returns_normally (print_progress (Some duration)).
Proof. intros Hd sample w. rewrite (print_progress_renders _ _ _ Hd). reflexivity. Qed.

Lemma world_normal o1 o2 e1 e2 w :
  add_outputs o2 (add_events e2 (add_outputs o1 (add_events e1 w))) =
  add_outputs (o1 ++ o2) (add_events (e1 ++ e2) w).
Proof.
  unfold add_outputs, add_events; cbn. rewrite !app_assoc. reflexivity.
Qed.

Lemma world_normal_nil w : add_outputs [] (add_events [] w) = w.
Proof.
  destruct w; unfold add_outputs, add_events; cbn. rewrite !app_nil_r. reflexivity.
Qed.

Lemma world_normal_event o e ev w :
  add_outputs o (add_events e (add_event ev w)) = add_outputs o (add_events (ev :: e) w).
Proof.
  unfold add_outputs, add_events, add_event; cbn. rewrite <- app_assoc. reflexivity.
Qed.

Section Printing.

(** A callback that only prints: [render sample] is what it writes. *)
Variable cb : callback.
Variable render : option timedelta -> list output.
Hypothesis cb_prints : forall sample w, cb sample w = (add_outputs (render sample) w, Ok tt).

Lemma call_printing sample w :
  call cb sample w = (add_outputs (render sample) (add_events [EvCall sample] w), Ok tt).
Proof. unfold call, bind, log, modify. cbn. rewrite cb_prints. reflexivity. Qed.

(** A play with a callback that only prints goes through the script up to
    its failure, and prints for each sample in it. *)
Lemma play_printing : forall script w,
  play cb script w =
  (add_outputs (flat_map render (script_calls script))
     (add_events (script_events script) w),
   match script_failure script with Some e => Raise e | None => Ok tt end).
Proof.
  induction script as [|[sample|raw| |err] rest IH]; intros w.
  - cbn. rewrite world_normal_nil. reflexivity.
  - rewrite play_call, call_printing, IH.
    cbn [script_calls script_events script_failure flat_map].
    rewrite world_normal. reflexivity.
  - rewrite play_read, IH.
    cbn [script_calls script_events script_failure].
    rewrite world_normal_event. reflexivity.
  - rewrite play_poll, IH.
    cbn [script_calls script_events script_failure].
    rewrite world_normal_event. reflexivity.
  - rewrite play_fail. cbn. rewrite world_normal_nil. reflexivity.
Qed.

Variable spawn : list string -> launch.

(** The whole effect of [encode] with a callback that only prints. *)
Lemma encode_printing source_file output_file config_section ffmpeg_call c w :
  encode_call source_file config_section = Ok ffmpeg_call ->
  spawn ffmpeg_call = Launched c ->
  encode spawn source_file output_file config_section (Some cb) w =
  (mkWorld (creates c ++ fs w) SIG_DFL SIG_DFL
           (terminal w ++
            flat_map render
              (Some timedelta0 :: map Some (stamps (texts (lines_seen c))) ++
               match garbled (lines_seen c) with None => [None] | Some _ => [] end))
           (trace w ++
            EvPopen ffmpeg_call (ToFile (name output_file)) PIPE ::
            script_events (progress_script (lines_seen c))),
   match garbled (lines_seen c) with
   | Some bytes => Raise (UnicodeDecodeError bytes)
   | None =>
       if exit_status c =? 0 then Ok tt
       else Raise (CalledProcessError (Some (exit_status c)) ffmpeg_call)
   end).
Proof.
  intros Hcall H. rewrite (encode_plays _ _ _ _ _ _ _ _ Hcall H).
  rewrite play_printing. cbn [fst snd].
  rewrite script_calls_progress, script_failure_progress.
  unfold restored, add_outputs, add_events, supervised;
    cbn [fs terminal trace sigint sigterm].
  rewrite <- app_assoc. cbn [app].
  destruct (garbled (lines_seen c)); reflexivity.
Qed.

End Printing.

Section Rendering.

Variable spawn : list string -> launch.

(** X14.  The whole effect of [encode] with the callback the driver gives
    it, for a capture that lasted [duration], not zero: the terminal gets
    0 %, then the percentage of each time stamp read, then 100 % and a line
    break; a time stamp equal to the duration ends the line as well, before
    the child is gone.  The files of the child appear, the handlers are
    reset, and the exit status decides the outcome.  A line that is not
    UTF-8 ends all this where it is read: the percentages of the lines
    before it are on the terminal, the closing 100 % is not, and [encode]
    raises [UnicodeDecodeError] whatever the exit status. *)
Theorem encode_renders_progress
        source_file output_file config_section ffmpeg_call duration c w :
  encode_call source_file config_section = Ok ffmpeg_call ->
  spawn ffmpeg_call = Launched c ->
  duration <> 0 ->
  encode spawn source_file output_file config_section
         (Some (print_progress (Some duration))) w =
  (mkWorld (creates c ++ fs w) SIG_DFL SIG_DFL
           (terminal w ++
            flat_map (rendering duration)
              (Some timedelta0 :: map Some (stamps (texts (lines_seen c))) ++
               match garbled (lines_seen c) with None => [None] | Some _ => [] end))
           (trace w ++
            EvPopen ffmpeg_call (ToFile (name output_file)) PIPE ::
            script_events (progress_script (lines_seen c))),
   match garbled (lines_seen c) with
   | Some bytes => Raise (UnicodeDecodeError bytes)
   | None =>
       if exit_status c =? 0 then Ok tt
       else Raise (CalledProcessError (Some (exit_status c)) ffmpeg_call)
   end).
Proof.
  intros Hcall H Hd.
  apply (encode_printing (print_progress (Some duration)) (rendering duration)
           (fun sample w0 => print_progress_renders duration sample w0 Hd)
           spawn source_file output_file config_section ffmpeg_call c w Hcall H).
Qed.

End Rendering.

Lemma encode_renders_progress_witness :
  terminal (fst (encode (scripted capture_2s transcode_ok) recording
                        (mkFile "/home/u/out-1.ogv") encode_items
                        (Some (print_progress (Some 2000000))) machine0)) =
  [Percent 0 2000000; Percent 1000000 2000000;
   Percent 2000000 2000000; LineBreak;
   Percent 2000000 2000000; LineBreak] /\
  encode (scripted capture_2s transcode_latin1) recording
         (mkFile "/home/u/out-1.ogv") encode_items
         (Some (print_progress (Some 2000000))) machine0 =
  (mkWorld ["/home/u/out-0.ogv"] SIG_DFL SIG_DFL
           [Percent 0 2000000; Percent 1000000 2000000]
           [EvPopen transcode_call (ToFile "/home/u/out-1.ogv") PIPE;
            EvCall (Some 0);
            EvReadline (Utf8 "time=00:00:01.00"); EvCall (Some 1000000); EvPoll;
            EvReadline (NotUtf8 latin1_title)],
   Raise (UnicodeDecodeError latin1_title)).
Proof.
  split.
  - exact (f_equal (fun r => terminal (fst r))
             (encode_renders_progress (scripted capture_2s transcode_ok) recording
                (mkFile "/home/u/out-1.ogv") encode_items transcode_call 2000000
                transcode_ok machine0 eq_refl eq_refl ltac:(discriminate))).
  - exact (encode_renders_progress (scripted capture_2s transcode_latin1) recording
             (mkFile "/home/u/out-1.ogv") encode_items transcode_call 2000000
             transcode_latin1 machine0 eq_refl eq_refl ltac:(discriminate)).
Defined.

(** ** The driver: every way a run can end *)





Section DriverOutcomes.

Variable spawn : list string -> launch.
Variable str_format : string -> nat -> result string.
Variable refused : string -> option refusal.




(** X17.  Without an [encode] section in the configuration the run cannot
    succeed: once the capture has returned, [config["encode"]] raises
    [KeyError] before the transcode is launched, and the run ends in the
    state the capture left, with the recording, the cache directory and the
    empty output file in place. *)
Theorem main_missing_encode_section inv w w1 w2 dest w3 duration :
  encode_section inv = None ->
  get_cachedir (xdg_cache_home inv) (general_cachedir inv) (token inv) w =
    (w1, Ok (cachedir_of inv)) ->
  open_output_file str_format refused (output_pattern inv) w1 = (w2, Ok dest) ->
  record spawn (recording_of inv) (framerate inv) (display inv) (geometry inv) w2 =
    (w3, Ok duration) ->
  main spawn str_format refused inv w = (w3, Raise (KeyError "encode")).
Proof.
  intros Hsec Hmk Hopen Hrec. unfold main.
  rewrite (bind_ok _ _ _ _ _ _ _ Hmk), (bind_ok _ _ _ _ _ _ _ Hopen).
  apply bind_raise. unfold with_dest.
  assert (Htry : try_except_reraise
            (record spawn (recording_of inv) (framerate inv) (display inv) (geometry inv))
            (os_unlink (name dest)) w2 = (w3, Ok duration)).
  { unfold try_except_reraise. rewrite Hrec. reflexivity. }
  unfold recording_of in Htry.
  rewrite (bind_ok _ _ _ _ _ _ _ Htry). rewrite Hsec. reflexivity.
Qed.

(** X18.  With progress output on, a capture from which no time stamp was
    read, or whose last time stamp is zero, makes the run fail in the first
    call of the callback: [print_progress] divides by the duration.  The
    transcode has been launched by then; it is not read, polled or waited
    for, and the output file and the cache directory stay. *)
Theorem main_progress_needs_duration
        inv w w1 w2 dest w3 duration section ffmpeg_call c :
  progress inv = true ->
  encode_section inv = Some section ->
  get_cachedir (xdg_cache_home inv) (general_cachedir inv) (token inv) w =
    (w1, Ok (cachedir_of inv)) ->
  open_output_file str_format refused (output_pattern inv) w1 = (w2, Ok dest) ->
  record spawn (recording_of inv) (framerate inv) (display inv) (geometry inv) w2 =
    (w3, Ok duration) ->
  encode_call (recording_of inv) section = Ok ffmpeg_call ->
  spawn ffmpeg_call = Launched c ->
  duration = None \/ duration = Some 0 ->
  main spawn str_format refused inv w =
  (restored (add_event (EvCall (Some timedelta0))
               (supervised ffmpeg_call (ToFile (name dest)) PIPE c w3)),
   Raise (match duration with
          | None => AttributeError "'NoneType' object has no attribute 'total_seconds'"
          | Some _ => ZeroDivisionError "float division by zero"
          end)).
Proof.
  intros Hp Hsec Hmk Hopen Hrec Hcall Hspawn Hd. unfold main.
  rewrite (bind_ok _ _ _ _ _ _ _ Hmk), (bind_ok _ _ _ _ _ _ _ Hopen).
  apply bind_raise. unfold with_dest.
  assert (Htry : try_except_reraise
            (record spawn (recording_of inv) (framerate inv) (display inv) (geometry inv))
            (os_unlink (name dest)) w2 = (w3, Ok duration)).
  { unfold try_except_reraise. rewrite Hrec. reflexivity. }
  unfold recording_of in *.
  rewrite (bind_ok _ _ _ _ _ _ _ Htry). rewrite Hsec, Hp.
  cbn [config_getitem functools_partial].
  unfold bind at 1. cbn [ret]. unfold bind at 1. cbn [ret].
  apply (encode_callback_error spawn _ dest section ffmpeg_call _ c w3 Hcall Hspawn).
  destruct Hd as [-> | ->]; reflexivity.
Qed.


Lemma record_ok_launched cachefile framerate display geometry w w' duration :
  record spawn cachefile framerate display geometry w = (w', Ok duration) ->
  exists c,
    spawn (record_call cachefile framerate display geometry) = Launched c /\
    capture_accepts (Some (exit_status c)) = true /\
    garbled (lines_seen c) = None /\
    duration = last (map Some (stamps (texts (lines_seen c)))) None.
Proof.
  destruct (spawn (record_call cachefile framerate display geometry)) as [c|e] eqn:E.
  - rewrite (record_launched _ _ _ _ _ _ _ E).
    destruct (garbled (lines_seen c)) as [bytes|] eqn:Hg; [discriminate|].
    unfold capture_verdict.
    destruct (capture_accepts (Some (exit_status c))) eqn:Hacc; [|discriminate].
    rewrite last_stamp_stamps. intros H. apply (f_equal snd) in H. cbn [snd] in H.
    exists c. repeat split; [assumption | assumption | congruence].
  - rewrite (record_launch_fails _ _ _ _ _ _ _ E). discriminate.
Qed.

(** X20.  A run returns normally only in that case: progress output is on,
    the configuration has an [encode] section whose options can be looked
    up, the capture was launched, printed UTF-8 and exited with 0 or 255
    after a time stamp, the last of them not zero, and the transcode was
    launched, printed UTF-8 and exited with 0. *)
Theorem main_success_requires inv w w' :
  main spawn str_format refused inv w = (w', Ok tt) ->
  progress inv = true /\
  exists section ffmpeg_call c1 c2 duration,
    encode_section inv = Some section /\
    spawn (record_call (recording_of inv) (framerate inv) (display inv) (geometry inv)) =
      Launched c1 /\
    capture_accepts (Some (exit_status c1)) = true /\
    garbled (lines_seen c1) = None /\
    last (map Some (stamps (texts (lines_seen c1)))) None = Some duration /\
    duration <> 0 /\
    encode_call (recording_of inv) section = Ok ffmpeg_call /\
    spawn ffmpeg_call = Launched c2 /\
    garbled (lines_seen c2) = None /\
    exit_status c2 = 0.
Proof.
  unfold main. unfold bind at 1.
  destruct (get_cachedir _ _ _ w) as [w1 [cachedir|e]] eqn:Hmk; [|discriminate].
  apply get_cachedir_ok in Hmk as (-> & _ & _).
  unfold bind at 1.
  destruct (open_output_file _ _ _ w1) as [w2 [dest|e]]; [|discriminate].
  unfold bind at 1.
  destruct (with_dest _ _ _ _ w2) as [w3 [[]|e]] eqn:Hbody; [|discriminate].
  intros _. revert Hbody. unfold with_dest. fold (recording_of inv).
  unfold bind at 1. unfold try_except_reraise.
  destruct (record _ _ _ _ _ w2) as [wr [duration|e]] eqn:Hrec.
  2:{ destruct (os_unlink (name dest) wr) as [wu [[]|e']]; discriminate. }
  apply record_ok_launched in Hrec as (c1 & Hcap & Hacc & Hdec1 & Hdur).
  unfold bind at 1. unfold config_getitem.
  destruct (encode_section inv) as [section|]; [|discriminate].
  cbn [ret]. unfold bind at 1. unfold functools_partial.
  destruct (progress inv); [|discriminate]. cbn [ret].
  destruct (encode_call (recording_of inv) section) as [ffmpeg_call|e] eqn:Hcall.
  2:{ rewrite (encode_no_call _ _ _ _ _ _ _ Hcall). discriminate. }
  destruct (spawn ffmpeg_call) as [c2|e] eqn:Henc.
  2:{ unfold encode, lift. unfold bind at 1. rewrite Hcall. unfold bind.
      rewrite (run_launch_fails _ _ _ _ _ _ _ Henc). discriminate. }
  intros Hencode.
  assert (Hd : exists d, duration = Some d /\ d <> 0).
  { destruct duration as [d|].
    - exists d. split; [reflexivity|]. intros ->. revert Hencode.
      rewrite (encode_callback_error spawn _ dest section ffmpeg_call
                 (print_progress (@Some timedelta 0)) c2 wr Hcall Henc
                 _ (ZeroDivisionError "float division by zero") eq_refl).
      discriminate.
    - exfalso. revert Hencode.
      rewrite (encode_callback_error spawn _ dest section ffmpeg_call
                 (print_progress None) c2 wr Hcall Henc
                 _ (AttributeError "'NoneType' object has no attribute 'total_seconds'")
                 eq_refl).
      discriminate. }
  destruct Hd as (d & -> & Hd).
  split; [reflexivity|]. exists section, ffmpeg_call, c1, c2, d.
  assert (Hsnd : snd (encode spawn (recording_of inv) dest section
                             (Some (print_progress (Some d))) wr) = Ok tt)
    by exact (f_equal snd Hencode).
  repeat split; auto.
  - revert Hsnd. rewrite (encode_plays _ _ _ _ _ _ _ _ Hcall Henc). cbn [snd].
    rewrite (play_returns _ (print_progress_returns d Hd)), script_failure_progress.
    destruct (garbled (lines_seen c2)); [discriminate | reflexivity].
  - eapply (encode_ok_status spawn (recording_of inv) dest section ffmpeg_call
              (Some (print_progress (Some d))) c2 wr Hcall Henc).
    exact Hsnd.
Qed.

End DriverOutcomes.



Lemma main_missing_encode_section_witness :
  encode_section without_section = None /\
  main (scripted capture_2s transcode_ok) format_braces writable without_section
       machine0 = (machine3, Raise (KeyError "encode")).
Proof.
  split; [reflexivity|].
  apply (main_missing_encode_section (scripted capture_2s transcode_ok) format_braces
           writable without_section machine0 machine1 machine2
           (mkFile "/home/u/out-1.ogv") machine3 (Some 2000000)
           eq_refl
           ltac:(vm_compute; reflexivity)
           ltac:(vm_compute; reflexivity)
           ltac:(vm_compute; reflexivity)).
Defined.

Lemma main_progress_needs_duration_witness :
  snd (main (scripted capture_mute transcode_ok) format_braces writable with_progress
            machine0) =
    Raise (AttributeError "'NoneType' object has no attribute 'total_seconds'") /\
  snd (main (scripted capture_instant transcode_ok) format_braces writable with_progress
            machine0) =
    Raise (ZeroDivisionError "float division by zero").
Proof.
  split.
  - rewrite (main_progress_needs_duration (scripted capture_mute transcode_ok)
               format_braces writable with_progress machine0 machine1 machine2
               (mkFile "/home/u/out-1.ogv")
               (fst (record (scripted capture_mute transcode_ok) recording 25 ":0"
                       (0, 0, 640, 480) machine2))
               None encode_items transcode_call transcode_ok
               eq_refl eq_refl
               ltac:(vm_compute; reflexivity) ltac:(vm_compute; reflexivity)
               ltac:(vm_compute; reflexivity) eq_refl eq_refl (or_introl eq_refl)).
    reflexivity.
  - rewrite (main_progress_needs_duration (scripted capture_instant transcode_ok)
               format_braces writable with_progress machine0 machine1 machine2
               (mkFile "/home/u/out-1.ogv")
               (fst (record (scripted capture_instant transcode_ok) recording 25 ":0"
                       (0, 0, 640, 480) machine2))
               (Some 0) encode_items transcode_call transcode_ok
               eq_refl eq_refl
               ltac:(vm_compute; reflexivity) ltac:(vm_compute; reflexivity)
               ltac:(vm_compute; reflexivity) eq_refl eq_refl (or_intror eq_refl)).
    reflexivity.
Defined.


Lemma main_success_requires_witness :
  main (scripted capture_2s transcode_ok) format_braces writable with_progress machine0 =
    (fst (main (scripted capture_2s transcode_ok) format_braces writable with_progress
               machine0),
     Ok tt) /\
  progress with_progress = true.
Proof.
  split; [vm_compute; reflexivity|].
  apply (proj1 (main_success_requires (scripted capture_2s transcode_ok) format_braces
                  writable with_progress machine0 _ ltac:(vm_compute; reflexivity))).
Defined.

(** ** discover_geometry *)

(** *** Integers in decimal *)









(** *** Searching a field *)














Lemma int_digits_nonneg s : forall acc z,
  0 <= acc -> int_digits acc s = Some z -> 0 <= z.
Proof.
  induction s as [|c s IH]; intros acc z Hacc; simpl.
  - intros [= <-]. assumption.
  - destruct (is_digit c) eqn:E; [|discriminate].
    apply digit_value_range in E. intros H.
    apply (IH (10 * acc + digit_value c) z); [lia | exact H].
Qed.

Lemma int_nonneg s z : int s = Ok z -> 0 <= z.
Proof.
  unfold int. destruct s as [|c s]; [discriminate|].
  destruct (int_digits 0 (String c s)) as [z'|] eqn:E; [|discriminate].
  destruct (int_max_str_digits <? _); [discriminate|].
  intros [= <-]. eapply int_digits_nonneg; [|eassumption]. lia.
Qed.

(** *** The line that names the window *)












(** *** The statistics of xwininfo *)












Section GeometryProperties.

Variable check_output : list string -> result string.

(** X21.  Every geometry [discover_geometry] returns has four components
    that are not negative: the patterns take digits only, without a sign. *)
Theorem discover_geometry_nonnegative args x y w h :
  discover_geometry check_output args = Ok (x, y, w, h) ->
  0 <= x /\ 0 <= y /\ 0 <= w /\ 0 <= h.
Proof.
  unfold discover_geometry, and_then.
  destruct (check_output (xwininfo_call args)) as [output|e]; [|discriminate].
  destruct (group1 (search_field re_upper_left_x output)) as [gx|]; [|discriminate].
  destruct (int gx) as [x'|] eqn:Ex; [|discriminate].
  destruct (group1 (search_field re_upper_left_y output)) as [gy|]; [|discriminate].
  destruct (int gy) as [y'|] eqn:Ey; [|discriminate].
  destruct (group1 (search_field re_width output)) as [gw|]; [|discriminate].
  destruct (int gw) as [w'|] eqn:Ew; [|discriminate].
  destruct (group1 (search_field re_height output)) as [gh|]; [|discriminate].
  destruct (int gh) as [h'|] eqn:Eh; [|discriminate].
  intros [= <- <- <- <-].
  repeat split; eapply int_nonneg; eassumption.
Qed.





End GeometryProperties.

(** *** Letter case *)

Lemma lower_idempotent c : lower (lower c) = lower c.
Proof.
  unfold lower.
  destruct ((65 <=? N_of_ascii c) && (N_of_ascii c <=? 90))%N eqn:E.
  - apply andb_true_iff in E as [H1 H2]. apply N.leb_le in H1, H2.
    rewrite N_ascii_embedding by lia.
    replace (N_of_ascii c + 32 <=? 90)%N with false;
      [rewrite andb_false_r; reflexivity|].
    symmetry. apply N.leb_gt. lia.
  - rewrite E. reflexivity.
Qed.

Lemma letter_no_digit n :
  (65 <= n <= 122)%N -> ((48 <=? n) && (n <=? 57))%N = false.
Proof.
  intros Hn. replace (n <=? 57)%N with false; [apply andb_false_r|].
  symmetry. apply N.leb_gt. lia.
Qed.

Lemma letter_no_space n :
  (65 <= n <= 122)%N ->
  (((9 <=? n) && (n <=? 13)) || ((28 <=? n) && (n <=? 32)) ||
   (n =? 133) || (n =? 160))%N = false.
Proof.
  intros Hn.
  replace (n <=? 13)%N with false by (symmetry; apply N.leb_gt; lia).
  replace (n <=? 32)%N with false by (symmetry; apply N.leb_gt; lia).
  replace (n =? 133)%N with false by (symmetry; apply N.eqb_neq; lia).
  replace (n =? 160)%N with false by (symmetry; apply N.eqb_neq; lia).
  rewrite !andb_false_r. reflexivity.
Qed.

Lemma lower_keeps c :
  is_digit (lower c) = is_digit c /\ is_space (lower c) = is_space c.
Proof.
  unfold lower.
  destruct ((65 <=? N_of_ascii c) && (N_of_ascii c <=? 90))%N eqn:E; [|auto].
  apply andb_true_iff in E as [H1 H2]. apply N.leb_le in H1, H2.
  unfold is_digit, is_space. cbv zeta. rewrite N_ascii_embedding by lia.
  rewrite (letter_no_digit (N_of_ascii c + 32)), (letter_no_digit (N_of_ascii c)),
    (letter_no_space (N_of_ascii c + 32)), (letter_no_space (N_of_ascii c)) by lia.
  split; reflexivity.
Qed.

Lemma lowered_digit c : is_digit c = true -> lower c = c.
Proof.
  unfold is_digit, lower. intros H.
  apply andb_true_iff in H as [_ H]. apply N.leb_le in H.
  replace (65 <=? N_of_ascii c)%N with false; [reflexivity|].
  symmetry. apply N.leb_gt. lia.
Qed.

Lemma match_label_lowered label : forall s,
  match_label label (lowered s) = option_map lowered (match_label label s).
Proof.
  induction label as [|p label IH]; intros s; [reflexivity|].
  destruct s as [|c s]; [reflexivity|]. cbn [lowered match_label].
  rewrite lower_idempotent. destruct (Ascii.eqb (lower c) (lower p)); auto.
Qed.

Lemma skip_spaces_lowered s : skip_spaces (lowered s) = lowered (skip_spaces s).
Proof.
  induction s as [|c s IH]; [reflexivity|]. cbn [lowered skip_spaces].
  rewrite (proj2 (lower_keeps c)). destruct (is_space c); auto.
Qed.

Lemma leading_digits_lowered s : leading_digits (lowered s) = leading_digits s.
Proof.
  induction s as [|c s IH]; [reflexivity|]. cbn [lowered leading_digits].
  rewrite (proj1 (lower_keeps c)). destruct (is_digit c) eqn:E; [|reflexivity].
  rewrite IH, (lowered_digit _ E). reflexivity.
Qed.

Lemma match_field_lowered label s :
  match_field label (lowered s) = match_field label s.
Proof.
  unfold match_field. rewrite match_label_lowered.
  destruct (match_label label s) as [rest|]; [|reflexivity].
  cbn [option_map]. rewrite skip_spaces_lowered, leading_digits_lowered. reflexivity.
Qed.

Lemma search_field_lowered label : forall s,
  search_field label (lowered s) = search_field label s.
Proof.
  induction s as [|c s IH].
  - reflexivity.
  - cbn [lowered search_field].
    change (String (lower c) (lowered s)) with (lowered (String c s)).
    rewrite match_field_lowered.
    destruct (match_field label (String c s)); [reflexivity | exact IH].
Qed.

(** X25.  The letter case of what xwininfo prints does not matter
    ([re.I]): on an output and on the same output in lower case
    [discover_geometry] gives the same. *)
Theorem discover_geometry_ignores_case check_output check_output' args output :
  check_output (xwininfo_call args) = Ok output ->
  check_output' (xwininfo_call args) = Ok (lowered output) ->
  discover_geometry check_output' args = discover_geometry check_output args.
Proof.
  intros H H'. unfold discover_geometry. rewrite H, H'. cbn [and_then].
  rewrite !search_field_lowered. reflexivity.
Qed.

Lemma discover_geometry_nonnegative_witness :
  discover_geometry
    (xwininfo_prints (xwininfo_stats "0x2e00003" (Some "xterm") 10 20 640 480))
    by_click = Ok (10, 20, 640, 480) /\
  0 <= 10 /\ 0 <= 20 /\ 0 <= 640 /\ 0 <= 480.
Proof.
  split; [vm_compute; reflexivity|].
  apply (discover_geometry_nonnegative
           (xwininfo_prints (xwininfo_stats "0x2e00003" (Some "xterm") 10 20 640 480))
           by_click 10 20 640 480).
  vm_compute; reflexivity.
Defined.




Lemma discover_geometry_ignores_case_witness :
  discover_geometry
    (xwininfo_prints (lowered (xwininfo_stats "0x2e00003" None 10 20 640 480)))
    by_click =
  discover_geometry
    (xwininfo_prints (xwininfo_stats "0x2e00003" None 10 20 640 480)) by_click.
Proof.
  apply (discover_geometry_ignores_case
           (xwininfo_prints (xwininfo_stats "0x2e00003" None 10 20 640 480))
           (xwininfo_prints (lowered (xwininfo_stats "0x2e00003" None 10 20 640 480)))
           by_click (xwininfo_stats "0x2e00003" None 10 20 640 480));
    reflexivity.
Defined.

